(** * Read-ahead buffers of the storage engine: embedding and verification

    This development embeds in Rocq the read-ahead code of the repository:

    - [file/readahead_raf.cc]: the class [ReadaheadRandomAccessFile], a
      wrapper around a random-access file that keeps one aligned buffer of
      read-ahead data ([Read], [Prefetch], [TryReadFromCache],
      [ReadIntoBuffer], [InvalidateCache] and the constructor);
    - [file/file_prefetch_buffer.h]: [ReadaheadParams], [BufferInfo] and the
      inline members of [FilePrefetchBuffer] ([UpdateReadPattern],
      [GetPrefetchOffset]).  The out-of-line members of [FilePrefetchBuffer]
      are only declared in that header; where a property depends on one of
      them, it is modelled from the specification and marked as such.

    Conventions.  [uint64_t] and [size_t] are 64-bit unsigned integers,
    represented by [Z] with the wrap-around of every addition, subtraction
    and multiplication written out ([wrap]); the parts that are modelled
    from the specification compute on unbounded integers, as the
    specification does.  A [char] buffer is a [list byte].  The member
    functions of [ReadaheadRandomAccessFile] are computations in a state
    monad over the object; the setters of [FilePrefetchBuffer] pass the
    object explicitly. *)

From Stdlib Require Import ZArith List Lia Bool Sorted.
From Stdlib Require String.
Import ListNotations.
Import String.StringSyntax.
Delimit Scope string_scope with string.
Open Scope list_scope.
Open Scope Z_scope.

(* ================================================================== *)
(** * Machine integers *)

Definition UINT64_MODULUS : Z := 2 ^ 64.

(** Wrap-around of unsigned 64-bit arithmetic. *)
Definition wrap (x : Z) : Z := x mod UINT64_MODULUS.

(** The values a [uint64_t] or a [size_t] can hold. *)
Definition in_range (x : Z) : Prop := 0 <= x < UINT64_MODULUS.

(** A [char]. *)
Abbreviation byte := Byte.byte.

(* ================================================================== *)
(** * A small state monad *)

Definition State (S A : Type) : Type := S -> A * S.

Definition ret {S A : Type} (a : A) : State S A := fun s => (a, s).

Definition bind {S A B : Type} (m : State S A) (k : A -> State S B)
  : State S B :=
  fun s => let (a, s') := m s in k a s'.

Definition gets {S A : Type} (f : S -> A) : State S A := fun s => (f s, s).

Definition modify {S : Type} (f : S -> S) : State S unit :=
  fun s => (tt, f s).

Declare Scope monad_scope.
Delimit Scope monad_scope with monad.
Notation "x <- m ;; k" := (bind m (fun x => k))
  (at level 61, m at next level, right associativity) : monad_scope.
Notation "' p <- m ;; k" := (bind m (fun x => let p := x in k))
  (at level 61, p pattern, m at next level, right associativity)
  : monad_scope.
Notation "m ;;; k" := (bind m (fun _ => k))
  (at level 61, right associativity) : monad_scope.

(* ================================================================== *)
(** * Collaborators of the read-ahead code *)

(** Status codes of [IOStatus] (rocksdb/status.h, rocksdb/io_status.h). *)
Inductive Code : Type :=
| kOk | kNotFound | kCorruption | kNotSupported | kInvalidArgument
| kIOError | kTimedOut | kAborted.

Record IOStatus : Type := mkIOStatus { code : Code; state : String.string }.

Definition IOStatus_OK : IOStatus := mkIOStatus kOk String.EmptyString.
Definition IOStatus_IOError (msg : String.string) : IOStatus := mkIOStatus kIOError msg.

Definition ok (s : IOStatus) : bool :=
  match code s with kOk => true | _ => false end.

(** Modelled from the spec: the helpers [Roundup] and
    [TruncateToPageBoundary] (util/aligned_buffer.h) are called by
    readahead_raf.cc but are not under src/.  Following the spec ("rounds
    [offset, offset+length) up to the file system's required alignment"),
    [TruncateToPageBoundary] rounds [s] down and [Roundup] rounds [x] up to
    a multiple of the alignment, in [size_t] arithmetic. *)
Definition TruncateToPageBoundary (page_size s : Z) : Z :=
  s - s mod page_size.

Definition Roundup (x y : Z) : Z :=
  wrap (wrap (x + y - 1) / y * y).

(** The test of the two [assert]s of [ReadIntoBuffer]. *)
Definition IsFileSectorAligned (off sector_size : Z) : bool :=
  off mod sector_size =? 0.

(** [memcpy (dst, src + from, len)]: the bytes that are copied. *)
Definition memcpy_from (src : list byte) (from len : Z) : list byte :=
  firstn (Z.to_nat len) (skipn (Z.to_nat from) src).

(** Bytes written at the start of a memory region. *)
Definition poke (data mem : list byte) : list byte :=
  data ++ skipn (length data) mem.

Module AlignedBuffer.

(** Modelled from the spec: the class [AlignedBuffer]
    (util/aligned_buffer.h) is not under src/.  The spec describes it as
    "an alignment-padded byte buffer; [currentSize()] = bytes actually
    populated".  [bufstart_] is the memory of [capacity_] bytes at
    [BufferStart()], of which the first [cursize_] bytes are populated. *)
Record t : Type := mk {
  alignment_ : Z;
  capacity_ : Z;
  cursize_ : Z;
  bufstart_ : list byte
}.

Definition empty : t := mk 1 0 0 [].

Definition Alignment (a : Z) (b : t) : t :=
  mk a (capacity_ b) (cursize_ b) (bufstart_ b).

(** A fresh allocation of the rounded-up capacity; nothing is populated.
    The fresh memory is represented by zero bytes. *)
Definition AllocateNewBuffer (requested_capacity : Z) (b : t) : t :=
  let new_capacity := Roundup requested_capacity (alignment_ b) in
  mk (alignment_ b) new_capacity 0 (repeat Byte.x00 (Z.to_nat new_capacity)).

Definition Capacity (b : t) : Z := capacity_ b.
Definition CurrentSize (b : t) : Z := cursize_ b.
Definition BufferStart (b : t) : list byte := bufstart_ b.

Definition Size (cursize : Z) (b : t) : t :=
  mk (alignment_ b) (capacity_ b) cursize (bufstart_ b).

Definition Clear (b : t) : t := Size 0 b.

(** The effect on the buffer of a callee that writes [data] at
    [BufferStart()]. *)
Definition Written (data : list byte) (b : t) : t :=
  mk (alignment_ b) (capacity_ b) (cursize_ b) (poke data (bufstart_ b)).

End AlignedBuffer.

(** The interface [FSRandomAccessFile] (rocksdb/file_system.h), as far as
    the wrapper uses it.  [F] is the state of the file object.
    [fs_Read f offset n] is [Read(offset, n, options, &result, scratch, dbg)]:
    it returns the status and the bytes the file placed at [scratch], to
    which [result] points ([result.size()] is their number).  When the
    status is not OK the bytes are what the file had written to [scratch]
    before it failed ("scratch[0..n-1] may be written by this routine"). *)
Class FSRandomAccessFile (F : Type) : Type := {
  fs_Read : F -> Z -> Z -> (IOStatus * list byte) * F;
  fs_GetRequiredBufferAlignment : F -> Z;
  fs_InvalidateCache : F -> Z -> Z -> IOStatus * F
}.

(** The contract of [Read]: "read up to [n] bytes". *)
Definition reads_at_most {F : Type} `{FSRandomAccessFile F} : Prop :=
  forall (f : F) (offset n : Z),
    Z.of_nat (length (snd (fst (fs_Read f offset n)))) <= Z.max 0 n.

(* ================================================================== *)
(** * file/readahead_raf.cc: [ReadaheadRandomAccessFile] *)

Module ReadaheadRandomAccessFile.
Section WithFile.

Context {F : Type} `{FSRandomAccessFile F}.

(** The members of the class.  [io_log_] is a ghost member: the list of
    the [(offset, n)] of every [file_->Read] issued so far, most recent
    first.  The mutex [lock_] serialises the calls, which are modelled one
    at a time; the [assert]s of [ReadIntoBuffer] compile away in release
    builds and are not modelled.  [GetUniqueId], [Hint] and
    [use_direct_io] only forward to the file. *)
Record t : Type := mk {
  file_ : F;
  alignment_ : Z;
  readahead_size_ : Z;
  buffer_ : AlignedBuffer.t;
  buffer_offset_ : Z;
  io_log_ : list (Z * Z)
}.

Definition set_buffer (b : AlignedBuffer.t) (o : t) : t :=
  mk (file_ o) (alignment_ o) (readahead_size_ o) b (buffer_offset_ o)
     (io_log_ o).

Definition set_buffer_offset (off : Z) (o : t) : t :=
  mk (file_ o) (alignment_ o) (readahead_size_ o) (buffer_ o) off
     (io_log_ o).

Local Open Scope monad_scope.

(** [file_->Read(offset, n, options, &result, scratch, dbg)] *)
Definition file_Read (offset n : Z) : State t (IOStatus * list byte) :=
  fun o =>
    let '(r, f') := fs_Read (file_ o) offset n in
    (r, mk f' (alignment_ o) (readahead_size_ o) (buffer_ o)
           (buffer_offset_ o) ((offset, n) :: io_log_ o)).

(** The constructor. *)
Definition new (file : F) (readahead_size : Z) : t :=
  let alignment := fs_GetRequiredBufferAlignment file in
  let readahead_size' := Roundup readahead_size alignment in
  let buffer :=
    AlignedBuffer.AllocateNewBuffer readahead_size'
      (AlignedBuffer.Alignment alignment AlignedBuffer.empty) in
  mk file alignment readahead_size' buffer 0 [].

(** [TryReadFromCache(offset, n, &cached_len, scratch)]: the returned
    triple is the result, [*cached_len] and the bytes copied to
    [scratch]. *)
Definition TryReadFromCache (offset n : Z)
  : State t (bool * Z * list byte) :=
  buffer_offset <- gets buffer_offset_ ;;
  buffer <- gets buffer_ ;;
  if (offset <? buffer_offset)
     || (wrap (buffer_offset + AlignedBuffer.CurrentSize buffer) <=? offset)
  then ret (false, 0, [])
  else
    let offset_in_buffer := wrap (offset - buffer_offset) in
    let cached_len :=
      Z.min (wrap (AlignedBuffer.CurrentSize buffer - offset_in_buffer)) n in
    ret (true, cached_len,
         memcpy_from (AlignedBuffer.BufferStart buffer) offset_in_buffer
                     cached_len).

(** [ReadIntoBuffer(offset, n, options, dbg)] *)
Definition ReadIntoBuffer (offset n : Z) : State t IOStatus :=
  buffer <- gets buffer_ ;;
  let n := if AlignedBuffer.Capacity buffer <? n
           then AlignedBuffer.Capacity buffer else n in
  '(s, result) <- file_Read offset n ;;
  modify (fun o => set_buffer (AlignedBuffer.Written result (buffer_ o)) o) ;;;
  if ok s then
    modify (set_buffer_offset offset) ;;;
    modify (fun o =>
              set_buffer
                (AlignedBuffer.Size (Z.of_nat (length result)) (buffer_ o))
                o) ;;;
    ret s
  else ret s.

(** [Read(offset, n, options, &result, scratch, dbg)].  The second
    component is [*result]; it is [None] where the function returns
    without assigning it. *)
Definition Read (offset n : Z) : State t (IOStatus * option (list byte)) :=
  alignment <- gets alignment_ ;;
  readahead_size <- gets readahead_size_ ;;
  if readahead_size <=? wrap (n + alignment) then
    '(s, result) <- file_Read offset n ;;
    ret (s, Some result)
  else
    '(hit, cached_len, scratch) <- TryReadFromCache offset n ;;
    buffer <- gets buffer_ ;;
    if hit && ((cached_len =? n)
               || (AlignedBuffer.CurrentSize buffer <? readahead_size))
    then ret (IOStatus_OK, Some scratch)
    else
      let advanced_offset := wrap (offset + cached_len) in
      let chunk_offset := TruncateToPageBoundary alignment advanced_offset in
      s <- ReadIntoBuffer chunk_offset readahead_size ;;
      if ok s then
        '(_, remaining_len, scratch') <-
          TryReadFromCache advanced_offset (n - cached_len) ;;
        ret (s, Some (scratch ++ scratch'))
      else ret (s, None).

(** [Prefetch(offset, n, options, dbg)] *)
Definition Prefetch (offset n : Z) : State t IOStatus :=
  readahead_size <- gets readahead_size_ ;;
  if n <? readahead_size then ret IOStatus_OK
  else
    alignment <- gets alignment_ ;;
    buffer_offset <- gets buffer_offset_ ;;
    let offset_ := offset in
    let prefetch_offset := TruncateToPageBoundary alignment offset_ in
    if prefetch_offset =? buffer_offset then ret IOStatus_OK
    else
      ReadIntoBuffer prefetch_offset
        (wrap (Roundup (wrap (offset_ + n)) alignment - prefetch_offset)).

(** [InvalidateCache(offset, length)] *)
Definition InvalidateCache (offset length : Z) : State t IOStatus :=
  modify (fun o => set_buffer (AlignedBuffer.Clear (buffer_ o)) o) ;;;
  fun o =>
    let '(s, f') := fs_InvalidateCache (file_ o) offset length in
    (s, mk f' (alignment_ o) (readahead_size_ o) (buffer_ o)
           (buffer_offset_ o) (io_log_ o)).

(** The calls a client can make on the wrapper. *)
Inductive call : Type :=
| CallRead (offset n : Z)
| CallPrefetch (offset n : Z)
| CallInvalidateCache (offset length : Z).

Definition exec (c : call) (o : t) : t :=
  match c with
  | CallRead offset n => snd (Read offset n o)
  | CallPrefetch offset n => snd (Prefetch offset n o)
  | CallInvalidateCache offset length => snd (InvalidateCache offset length o)
  end.

Definition exec_all (cs : list call) (o : t) : t :=
  fold_left (fun o c => exec c o) cs o.

(** [buffer_.CurrentSize()]: the number of populated bytes of the buffer. *)
Definition CurrentSize (o : t) : Z := AlignedBuffer.CurrentSize (buffer_ o).

(** The lookup finds all [n] bytes at [offset]: the test of a full hit in
    [Read]. *)
Definition covers (offset n : Z) (o : t) : Prop :=
  exists scratch, fst (TryReadFromCache offset n o) = (true, n, scratch).

(** The arguments of a call fit their types. *)
Definition call_in_range (c : call) : Prop :=
  match c with
  | CallRead offset n => in_range offset /\ in_range n
  | CallPrefetch offset n => in_range offset /\ in_range n
  | CallInvalidateCache offset length => in_range offset /\ in_range length
  end.

(** The state invariant of the wrapper: the cached offset is a multiple of
    the alignment, and the populated size is within the capacity, which is
    within the read-ahead size. *)
Definition wf (o : t) : Prop :=
  0 < alignment_ o
  /\ in_range (buffer_offset_ o)
  /\ buffer_offset_ o mod alignment_ o = 0
  /\ 0 <= CurrentSize o <= AlignedBuffer.Capacity (buffer_ o)
  /\ AlignedBuffer.Capacity (buffer_ o) <= readahead_size_ o
  /\ readahead_size_ o < UINT64_MODULUS.

End WithFile.
#[global] Arguments t F : clear implicits.
End ReadaheadRandomAccessFile.

(** An in-memory file, used to run the wrapper on concrete inputs.  The
    bytes from [bad_from_] on cannot be read: a read that ends at or before
    [bad_from_] returns the bytes of [contents_] in the requested range; a
    read that reaches [bad_from_] fails with an [IOError], after it has
    written to [scratch] the readable bytes before [bad_from_]. *)
Module MemFile.

Record t : Type := mk {
  contents_ : list byte;
  page_size_ : Z;
  bad_from_ : Z
}.

Definition Read (f : t) (offset n : Z) : (IOStatus * list byte) * t :=
  if offset + n <=? bad_from_ f
  then ((IOStatus_OK, memcpy_from (contents_ f) offset n), f)
  else ((IOStatus_IOError "injected read error"%string,
         memcpy_from (contents_ f) offset (bad_from_ f - offset)), f).

#[global] Instance file : FSRandomAccessFile t := {
  fs_Read := Read;
  fs_GetRequiredBufferAlignment := page_size_;
  fs_InvalidateCache := fun f _ _ => (IOStatus_OK, f)
}.

(** Sixteen bytes [0x00 .. 0x0f]. *)
Definition sixteen : list byte :=
  [Byte.x00; Byte.x01; Byte.x02; Byte.x03; Byte.x04; Byte.x05; Byte.x06;
   Byte.x07; Byte.x08; Byte.x09; Byte.x0a; Byte.x0b; Byte.x0c; Byte.x0d;
   Byte.x0e; Byte.x0f].

(** A 64-byte file with 4-byte pages whose bytes from offset 40 on cannot
    be read. *)
Definition sample : t :=
  mk (sixteen ++ sixteen ++ sixteen ++ sixteen) 4 40.

End MemFile.

(* ================================================================== *)
(** * file/file_prefetch_buffer.h *)

(** [#define DEFAULT_DECREMENT 8 * 1024] *)
Definition DEFAULT_DECREMENT : Z := 8 * 1024.

(** [struct ReadaheadParams] *)
Module ReadaheadParams.

Record t : Type := mk {
  initial_readahead_size : Z;
  max_readahead_size : Z;
  implicit_auto_readahead : bool;
  num_file_reads : Z;
  num_file_reads_for_auto_readahead : Z;
  num_buffers : Z
}.

(** The default member initialisers. *)
Definition default : t := mk 0 0 false 0 0 1.

End ReadaheadParams.

(** [struct BufferInfo] *)
Module BufferInfo.

(** [io_handle_] and [del_fn_] are opaque; [None] is [nullptr]. *)
Record t : Type := mk {
  buffer_ : AlignedBuffer.t;
  offset_ : Z;
  async_req_len_ : Z;
  async_read_in_progress_ : bool;
  io_handle_ : option nat;
  del_fn_ : option nat;
  initial_end_offset_ : Z
}.

Definition default : t :=
  mk AlignedBuffer.empty 0 0 false None None 0.

(** [assert(c); return v;].  The result is [None] when the assertion
    fails, where a build with assertions aborts.  A result [Some v] is what
    every build returns: the assertion holds, or is compiled away, and the
    value is [v]. *)
Definition asserting {A : Type} (c : bool) (v : A) : option A :=
  if c then Some v else None.

Definition ClearBuffer (b : t) : t :=
  mk (AlignedBuffer.Clear (buffer_ b)) (offset_ b) 0
     (async_read_in_progress_ b) (io_handle_ b) (del_fn_ b) 0.

Definition CurrentSize (b : t) : Z := AlignedBuffer.CurrentSize (buffer_ b).

Definition IsDataBlockInBuffer (offset length : Z) (b : t) : option bool :=
  asserting (Bool.eqb (async_read_in_progress_ b) false)
    ((offset_ b <=? offset)
     && (wrap (offset + length) <=? wrap (offset_ b + CurrentSize b))).

Definition IsOffsetInBuffer (offset : Z) (b : t) : option bool :=
  asserting (Bool.eqb (async_read_in_progress_ b) false)
    ((offset_ b <=? offset) && (offset <? wrap (offset_ b + CurrentSize b))).

Definition DoesBufferContainData (b : t) : option bool :=
  asserting (Bool.eqb (async_read_in_progress_ b) false)
    (0 <? CurrentSize b).

(** The operands of [&&] are evaluated from the left, and only as far as
    needed: [DoesBufferContainData()] is called only when no read is in
    progress. *)
Definition IsBufferOutdated (offset : Z) (b : t) : option bool :=
  if negb (async_read_in_progress_ b) then
    match DoesBufferContainData b with
    | Some true => Some (wrap (offset_ b + CurrentSize b) <=? offset)
    | Some false => Some false
    | None => None
    end
  else Some false.

Definition IsBufferOutdatedWithAsyncProgress (offset : Z) (b : t) : bool :=
  async_read_in_progress_ b
  && (match io_handle_ b with Some _ => true | None => false end)
  && (wrap (offset_ b + async_req_len_ b) <=? offset).

Definition IsOffsetInBufferWithAsyncProgress (offset : Z) (b : t) : bool :=
  async_read_in_progress_ b && (offset_ b <=? offset)
  && (offset <? wrap (offset_ b + async_req_len_ b)).

End BufferInfo.

(** [enum class FilePrefetchBufferUsage] *)
Inductive FilePrefetchBufferUsage : Type :=
| kTableOpenPrefetchTail
| kUserScanPrefetch
| kUnknown.

(** How a call ends.  [UndefinedBehaviour] stands for executions the
    language gives no meaning to, such as [front()] on an empty
    [std::deque]. *)
Inductive outcome (A : Type) : Type :=
| Returns (a : A)
| PreconditionViolation
| CapacityExceeded
| UndefinedBehaviour.
Arguments Returns {A} a.
Arguments PreconditionViolation {A}.
Arguments CapacityExceeded {A}.
Arguments UndefinedBehaviour {A}.

Definition outcome_map {A B : Type} (f : A -> B) (r : outcome A) : outcome B :=
  match r with
  | Returns a => Returns (f a)
  | PreconditionViolation => PreconditionViolation
  | CapacityExceeded => CapacityExceeded
  | UndefinedBehaviour => UndefinedBehaviour
  end.

(** [std::deque<T>::front()]: calling it on an empty container is
    undefined. *)
Definition deque_front {A : Type} (d : list A) : outcome A :=
  match d with
  | [] => UndefinedBehaviour
  | x :: _ => Returns x
  end.

(** [v[i] = x] on a [std::vector]: [operator[]] does not check the index,
    and an access at an index that is not below [v.size()] is undefined.
    The result is the vector after the assignment. *)
Fixpoint vector_set {A : Type} (v : list A) (i : nat) (x : A)
  : outcome (list A) :=
  match v, i with
  | [], _ => UndefinedBehaviour
  | _ :: v', O => Returns (x :: v')
  | y :: v', S i' => outcome_map (cons y) (vector_set v' i' x)
  end.

(** [class FilePrefetchBuffer] *)
Module FilePrefetchBuffer.

(** The members the inline functions of the header read and write
    ([bufs_], [min_offset_read_], [prev_offset_], [prev_len_],
    [explicit_prefetch_submitted_], [readahead_size_], [num_file_reads_])
    and the members that hold the [ReadaheadParams] and the constructor
    arguments [enable] and [track_min_offset] the header documents.
    [bufs_] is the queue of buffers, front first. *)
Record t : Type := mk {
  bufs_ : list BufferInfo.t;
  readahead_size_ : Z;
  initial_auto_readahead_size_ : Z;
  max_readahead_size_ : Z;
  min_offset_read_ : Z;
  enable_ : bool;
  track_min_offset_ : bool;
  implicit_auto_readahead_ : bool;
  prev_offset_ : Z;
  prev_len_ : Z;
  num_file_reads_for_auto_readahead_ : Z;
  num_file_reads_ : Z;
  explicit_prefetch_submitted_ : bool;
  num_buffers_ : Z
}.

Definition set_bufs (bs : list BufferInfo.t) (o : t) : t :=
  mk bs (readahead_size_ o) (initial_auto_readahead_size_ o)
     (max_readahead_size_ o) (min_offset_read_ o) (enable_ o)
     (track_min_offset_ o) (implicit_auto_readahead_ o) (prev_offset_ o)
     (prev_len_ o) (num_file_reads_for_auto_readahead_ o)
     (num_file_reads_ o) (explicit_prefetch_submitted_ o) (num_buffers_ o).

Definition set_readahead_size (r : Z) (o : t) : t :=
  mk (bufs_ o) r (initial_auto_readahead_size_ o)
     (max_readahead_size_ o) (min_offset_read_ o) (enable_ o)
     (track_min_offset_ o) (implicit_auto_readahead_ o) (prev_offset_ o)
     (prev_len_ o) (num_file_reads_for_auto_readahead_ o)
     (num_file_reads_ o) (explicit_prefetch_submitted_ o) (num_buffers_ o).

Definition set_num_file_reads (k : Z) (o : t) : t :=
  mk (bufs_ o) (readahead_size_ o) (initial_auto_readahead_size_ o)
     (max_readahead_size_ o) (min_offset_read_ o) (enable_ o)
     (track_min_offset_ o) (implicit_auto_readahead_ o) (prev_offset_ o)
     (prev_len_ o) (num_file_reads_for_auto_readahead_ o)
     k (explicit_prefetch_submitted_ o) (num_buffers_ o).

Definition set_min_offset_read (m : Z) (o : t) : t :=
  mk (bufs_ o) (readahead_size_ o) (initial_auto_readahead_size_ o)
     (max_readahead_size_ o) m (enable_ o)
     (track_min_offset_ o) (implicit_auto_readahead_ o) (prev_offset_ o)
     (prev_len_ o) (num_file_reads_for_auto_readahead_ o)
     (num_file_reads_ o) (explicit_prefetch_submitted_ o) (num_buffers_ o).

(** The three assignments at the end of [UpdateReadPattern]. *)
Definition set_read_pattern (offset len : Z) (o : t) : t :=
  mk (bufs_ o) (readahead_size_ o) (initial_auto_readahead_size_ o)
     (max_readahead_size_ o) (min_offset_read_ o) (enable_ o)
     (track_min_offset_ o) (implicit_auto_readahead_ o) offset
     len (num_file_reads_for_auto_readahead_ o)
     (num_file_reads_ o) false (num_buffers_ o).

Definition set_explicit_prefetch_submitted (e : bool) (o : t) : t :=
  mk (bufs_ o) (readahead_size_ o) (initial_auto_readahead_size_ o)
     (max_readahead_size_ o) (min_offset_read_ o) (enable_ o)
     (track_min_offset_ o) (implicit_auto_readahead_ o) (prev_offset_ o)
     (prev_len_ o) (num_file_reads_for_auto_readahead_ o)
     (num_file_reads_ o) e (num_buffers_ o).

(** Modelled from the spec: the constructor is not in the header under
    src/.  The spec (section 3) has [currentReadaheadSize] start at the
    configured initial value, and the header documents [enable] and
    [track_min_offset]; the queue of buffers starts empty and the minimum
    offset at the largest [size_t]. *)
Definition new (p : ReadaheadParams.t) (enable track_min_offset : bool) : t :=
  mk [] (ReadaheadParams.initial_readahead_size p)
     (ReadaheadParams.initial_readahead_size p)
     (ReadaheadParams.max_readahead_size p)
     (UINT64_MODULUS - 1) enable track_min_offset
     (ReadaheadParams.implicit_auto_readahead p) 0 0
     (ReadaheadParams.num_file_reads_for_auto_readahead p)
     (ReadaheadParams.num_file_reads p) false
     (ReadaheadParams.num_buffers p).

(** [min_offset_read()] *)
Definition min_offset_read (o : t) : Z := min_offset_read_ o.

(** [GetPrefetchOffset()]: [return bufs_.front()->offset_;] *)
Definition GetPrefetchOffset (o : t) : outcome Z :=
  outcome_map BufferInfo.offset_ (deque_front (bufs_ o)).

(** [GetReadaheadState(readahead_info)]: the two fields it fills in. *)
Definition GetReadaheadState (o : t) : Z * Z :=
  (readahead_size_ o, num_file_reads_ o).

(** The pair that [TEST_GetBufferOffsetandSize] stores for a buffer. *)
Definition buffer_offset_and_size (b : BufferInfo.t) : Z * Z :=
  (BufferInfo.offset_ b,
   if BufferInfo.async_read_in_progress_ b
   then BufferInfo.async_req_len_ b
   else BufferInfo.CurrentSize b).

(** [TEST_GetBufferOffsetandSize(buffer_info)]: for each index [i] of the
    queue, in order, the loop assigns the two components of
    [buffer_info[i]] from [bufs_[i]].  [buffer_info] is the vector of the
    caller, which the function neither resizes nor checks; the result is
    that vector after the call. *)
Definition TEST_GetBufferOffsetandSize (buffer_info : list (Z * Z)) (o : t)
  : outcome (list (Z * Z)) :=
  fold_left
    (fun (r : outcome (list (Z * Z))) (i : nat) =>
       match r with
       | Returns v =>
           match nth_error (bufs_ o) i with
           | Some b => vector_set v i (buffer_offset_and_size b)
           | None => UndefinedBehaviour
           end
       | _ => r
       end)
    (seq 0 (length (bufs_ o))) (Returns buffer_info).

(** ** The sequential-pattern detector *)

(** Modelled from the spec: [IsBlockSequential] is only declared in the
    header.  Section 4.4: "a read is classified sequential if its offset
    equals previousReadOffset + previousReadLength". *)
Definition IsBlockSequential (offset : Z) (o : t) : bool :=
  offset =? prev_offset_ o + prev_len_ o.

(** Modelled from the spec: the eligibility test of section 4.4, "pattern
    had been sequential and doubled past the initial size". *)
Definition IsEligibleForDecrease (o : t) : bool :=
  (0 <? num_file_reads_ o)
  && (initial_auto_readahead_size_ o <? readahead_size_ o).

(** Modelled from the spec: the body of [DecreaseReadAheadIfEligible] is
    missing, the header only declares it with the default
    [value = DEFAULT_DECREMENT].  Section 4.4: "a read that breaks the
    sequential chain (non-contiguous offset) triggers
    decreaseReadAheadIfEligible: if eligible, currentReadaheadSize is
    reduced by a fixed decrement down to a floor of initialReadaheadSize,
    and the sequential counter resets to zero". *)
Definition DecreaseReadAheadIfEligible (offset size value : Z) (o : t) : t :=
  if IsBlockSequential offset o then o
  else
    let o1 :=
      if IsEligibleForDecrease o
      then set_readahead_size
             (Z.max (initial_auto_readahead_size_ o)
                    (readahead_size_ o - value)) o
      else o in
    set_num_file_reads 0 o1.

(** [UpdateReadPattern(offset, len, decrease_readaheadsize)] *)
Definition UpdateReadPattern (offset len : Z) (decrease_readaheadsize : bool)
           (o : t) : t :=
  let o1 :=
    if decrease_readaheadsize
    then DecreaseReadAheadIfEligible offset len DEFAULT_DECREMENT o
    else o in
  set_read_pattern offset len o1.

(** Modelled from the spec: the coverage check of the read-through lookup
    (section 4.3, step 2); [TryReadFromCache] is only declared.  A full
    hit needs a block that holds the whole range and has no fetch in
    flight. *)
Definition IsCovered (offset n : Z) (o : t) : bool :=
  existsb (fun b => negb (BufferInfo.async_read_in_progress_ b)
                    && match BufferInfo.IsDataBlockInBuffer offset n b with
                       | Some covered => covered
                       | None => false
                       end)
          (bufs_ o).

(** Modelled from the spec: section 4.4, "implicit read-ahead only
    activates after numFileReadsForAutoReadahead consecutive sequential
    reads". *)
Definition IsReadaheadActive (o : t) : bool :=
  implicit_auto_readahead_ o
  && (num_file_reads_for_auto_readahead_ o <? num_file_reads_ o).

(** Modelled from the spec: section 4.4, "once active, each subsequent
    sequential miss doubles currentReadaheadSize, capped at
    maxReadaheadSize". *)
Definition GrowReadahead (o : t) : t :=
  set_readahead_size
    (Z.min (max_readahead_size_ o) (2 * readahead_size_ o)) o.

(** Modelled from the spec: what a sequential miss does to the detector:
    the read is counted and, when read-ahead is active, the size grows. *)
Definition SequentialMiss (offset n : Z) (o : t) : t :=
  let o1 :=
    set_num_file_reads (num_file_reads_ o + 1)
                       (UpdateReadPattern offset n false o) in
  if IsReadaheadActive o1 then GrowReadahead o1 else o1.

(** Modelled from the spec: the bookkeeping of [TryReadFromCache], whose
    body is missing (section 4.3, steps 1, 3 and 4, and section 4.4):
    the minimum offset is tracked even on a miss; a disabled buffer does
    nothing else; a hit only records the read; on a miss the compaction
    mode and a pending explicit prefetch suppress the adaptive sizing;
    otherwise a sequential miss counts and grows and a miss that breaks
    the chain shrinks.  The fetch itself is [CompleteFetch] below. *)
Definition TryReadFromCacheBookkeeping (offset n : Z) (for_compaction : bool)
           (o : t) : t :=
  let o1 :=
    if track_min_offset_ o
    then set_min_offset_read (Z.min (min_offset_read_ o) offset) o
    else o in
  if negb (enable_ o1) then o1
  else if IsCovered offset n o1 then UpdateReadPattern offset n false o1
  else if for_compaction || explicit_prefetch_submitted_ o1
       then UpdateReadPattern offset n false o1
  else if IsBlockSequential offset o1 then SequentialMiss offset n o1
  else UpdateReadPattern offset n true o1.

(** Modelled from the spec: the untracked variant "skips step 1 but is
    otherwise identical". *)
Definition TryReadFromCacheUntrackedBookkeeping (offset n : Z)
           (for_compaction : bool) (o : t) : t :=
  if negb (enable_ o) then o
  else if IsCovered offset n o then UpdateReadPattern offset n false o
  else if for_compaction || explicit_prefetch_submitted_ o
       then UpdateReadPattern offset n false o
  else if IsBlockSequential offset o then SequentialMiss offset n o
  else UpdateReadPattern offset n true o.

(** ** The queue of buffers (the spec's BlockSet) *)

(** Modelled from the spec: the buffer-queue members below are only
    declared in the header.  Section 4.1: [isEmpty()]; [first()/last()]
    "fail with PreconditionViolation if empty"; [allocate()] "adds a
    block if under capacity, else fails with CapacityExceeded";
    [freeFront()/freeBack()/freeAll()]; [freeEmptyBlocks()] "reclaims
    blocks whose currentSize()==0 and no fetch is in progress". *)
Definition IsBufferQueueEmpty (o : t) : bool :=
  match bufs_ o with [] => true | _ :: _ => false end.

Definition NumBuffersAllocated (o : t) : Z := Z.of_nat (length (bufs_ o)).

Definition GetFirstBuffer (o : t) : outcome BufferInfo.t :=
  match bufs_ o with
  | [] => PreconditionViolation
  | b :: _ => Returns b
  end.

Definition GetLastBuffer (o : t) : outcome BufferInfo.t :=
  match rev (bufs_ o) with
  | [] => PreconditionViolation
  | b :: _ => Returns b
  end.

Definition AllocateBuffer (o : t) : outcome t :=
  if NumBuffersAllocated o <? num_buffers_ o
  then Returns (set_bufs (bufs_ o ++ [BufferInfo.default]) o)
  else CapacityExceeded.

Definition AllocateBufferIfEmpty (o : t) : outcome t :=
  if IsBufferQueueEmpty o then AllocateBuffer o else Returns o.

Definition FreeFrontBuffer (o : t) : t := set_bufs (tl (bufs_ o)) o.

Definition FreeLastBuffer (o : t) : t := set_bufs (removelast (bufs_ o)) o.

Definition FreeAllBuffers (o : t) : t := set_bufs [] o.

Definition FreeEmptyBuffers (o : t) : t :=
  set_bufs (filter (fun b => BufferInfo.async_read_in_progress_ b
                             || (0 <? BufferInfo.CurrentSize b))
                   (bufs_ o)) o.

(** Modelled from the spec: how a block is obtained for a fetch (section
    4.3, step 3, and section 7): [CapacityExceeded] is an "internal
    signal to evict before allocating", and "oldest offset is evicted
    first", which is the front of the queue.  The result is the block
    that was evicted, if any, and the new state. *)
Definition AcquireBuffer (o : t) : outcome (option BufferInfo.t * t) :=
  match AllocateBuffer o with
  | CapacityExceeded =>
      outcome_map (fun o' => (hd_error (bufs_ o), o'))
                  (AllocateBuffer (FreeFrontBuffer o))
  | r => outcome_map (fun o' => (None, o')) r
  end.

(** Modelled from the spec: a fetch that completed with [data] for the
    file offset [offset] populates the block at the back of the queue
    (section 4.2: "on success sets the block's offset/data"). *)
Definition fill (offset : Z) (data : list byte) (b : BufferInfo.t)
  : BufferInfo.t :=
  BufferInfo.mk
    (AlignedBuffer.Size (Z.of_nat (length data))
       (AlignedBuffer.Written data (BufferInfo.buffer_ b)))
    offset 0 false None None (BufferInfo.initial_end_offset_ b).

Definition CompleteFetch (offset : Z) (data : list byte) (o : t) : t :=
  match rev (bufs_ o) with
  | [] => o
  | b :: front => set_bufs (rev (fill offset data b :: front)) o
  end.

(** The operations on a prefetch buffer.  An allocation that fails leaves
    the buffer as it was. *)
Inductive op : Type :=
| OpTryReadFromCache (offset n : Z) (for_compaction : bool)
| OpTryReadFromCacheUntracked (offset n : Z) (for_compaction : bool)
| OpUpdateReadPattern (offset len : Z) (decrease_readaheadsize : bool)
| OpDecreaseReadAheadIfEligible (offset size value : Z)
| OpExplicitPrefetch
| OpAllocateBuffer
| OpAllocateBufferIfEmpty
| OpAcquireBuffer
| OpCompleteFetch (offset : Z) (data : list byte)
| OpFreeFrontBuffer
| OpFreeLastBuffer
| OpFreeAllBuffers
| OpFreeEmptyBuffers.

Definition or_unchanged (o : t) (r : outcome t) : t :=
  match r with Returns o' => o' | _ => o end.

Definition step (o : t) (x : op) : t :=
  match x with
  | OpTryReadFromCache offset n fc => TryReadFromCacheBookkeeping offset n fc o
  | OpTryReadFromCacheUntracked offset n fc =>
      TryReadFromCacheUntrackedBookkeeping offset n fc o
  | OpUpdateReadPattern offset len d => UpdateReadPattern offset len d o
  | OpDecreaseReadAheadIfEligible offset size value =>
      DecreaseReadAheadIfEligible offset size value o
  | OpExplicitPrefetch => set_explicit_prefetch_submitted true o
  | OpAllocateBuffer => or_unchanged o (AllocateBuffer o)
  | OpAllocateBufferIfEmpty => or_unchanged o (AllocateBufferIfEmpty o)
  | OpAcquireBuffer => or_unchanged o (outcome_map snd (AcquireBuffer o))
  | OpCompleteFetch offset data => CompleteFetch offset data o
  | OpFreeFrontBuffer => FreeFrontBuffer o
  | OpFreeLastBuffer => FreeLastBuffer o
  | OpFreeAllBuffers => FreeAllBuffers o
  | OpFreeEmptyBuffers => FreeEmptyBuffers o
  end.

Definition run (ops : list op) (o : t) : t := fold_left step ops o.


(** The read-ahead size is within the configured maximum. *)
Definition readahead_within_max (o : t) : Prop :=
  readahead_size_ o <= max_readahead_size_ o.





End FilePrefetchBuffer.

(* ================================================================== *)
(** * Concrete objects *)

(** The objects on which the operations are run in the examples below. *)
Module Samples.

(** A wrapper around the sample file with a read-ahead of 16 bytes (the
    alignment is 4). *)
Definition raf0 : ReadaheadRandomAccessFile.t MemFile.t :=
  ReadaheadRandomAccessFile.new MemFile.sample 16.

(** [raf0] after a fetch of the 8 bytes at offset 4. *)
Definition raf_half : ReadaheadRandomAccessFile.t MemFile.t :=
  snd (ReadaheadRandomAccessFile.ReadIntoBuffer 4 8 raf0).

(** [raf0] after [Prefetch(4, 16)]: the buffer is full. *)
Definition raf_full : ReadaheadRandomAccessFile.t MemFile.t :=
  ReadaheadRandomAccessFile.exec_all
    [ReadaheadRandomAccessFile.CallPrefetch 4 16] raf0.


(** The configuration of the spec's tests: an initial read-ahead of 4096
    bytes, a maximum of 64 KiB, implicit read-ahead after two sequential
    reads, two buffers. *)
Definition params : ReadaheadParams.t :=
  ReadaheadParams.mk 4096 65536 true 0 2 2.

Definition fpb0 : FilePrefetchBuffer.t :=
  FilePrefetchBuffer.new params true false.

(** Three contiguous misses of 4096 bytes from offset 0, and a fourth. *)
Definition three_misses : list FilePrefetchBuffer.op :=
  [FilePrefetchBuffer.OpTryReadFromCache 0 4096 false;
   FilePrefetchBuffer.OpTryReadFromCache 4096 4096 false;
   FilePrefetchBuffer.OpTryReadFromCache 8192 4096 false].

Definition four_misses : list FilePrefetchBuffer.op :=
  three_misses ++ [FilePrefetchBuffer.OpTryReadFromCache 12288 4096 false].

(** Two blocks are obtained and filled, at offsets 0 and 4096. *)
Definition two_blocks : list FilePrefetchBuffer.op :=
  [FilePrefetchBuffer.OpAcquireBuffer;
   FilePrefetchBuffer.OpCompleteFetch 0 MemFile.sixteen;
   FilePrefetchBuffer.OpAcquireBuffer;
   FilePrefetchBuffer.OpCompleteFetch 4096 MemFile.sixteen].


End Samples.

(* ================================================================== *)
(** * Further code and the predicates of its properties *)

(** An in-memory file whose reads always succeed and return the bytes of
    [contents_] in the requested range, cut at the end of the file. *)
Module PlainFile.

Record t : Type := mk {
  contents_ : list byte;
  page_size_ : Z
}.

Definition Read (f : t) (offset n : Z) : (IOStatus * list byte) * t :=
  ((IOStatus_OK, memcpy_from (contents_ f) offset n), f).

#[global] Instance file : FSRandomAccessFile t := {
  fs_Read := Read;
  fs_GetRequiredBufferAlignment := page_size_;
  fs_InvalidateCache := fun f _ _ => (IOStatus_OK, f)
}.

(** The 64 bytes of [MemFile.sample], with 4-byte pages. *)
Definition sample : t := mk (MemFile.contents_ MemFile.sample) 4.

End PlainFile.

(** Predicates on the wrapper of file/readahead_raf.cc. *)
Module ReadaheadInvariants.
Section WithFile.

Context {F : Type} `{FSRandomAccessFile F}.

(** The file [f] does not change and its reads do not fail: every read
    returns the bytes of [contents] in the requested range, cut at the
    end, and neither a read nor an invalidation changes the file. *)
Definition stable_file (contents : list byte) (f : F) : Prop :=
  (forall offset n : Z,
      fs_Read f offset n = ((IOStatus_OK, memcpy_from contents offset n), f))
  /\ (forall offset length : Z, snd (fs_InvalidateCache f offset length) = f).

(** The end of the requested range, rounded up, fits [size_t]. *)
Definition call_fits (alignment : Z) (c : ReadaheadRandomAccessFile.call)
  : Prop :=
  match c with
  | ReadaheadRandomAccessFile.CallRead offset n =>
      in_range offset /\ 0 <= n /\ offset + n + alignment < UINT64_MODULUS
  | ReadaheadRandomAccessFile.CallPrefetch offset n =>
      in_range offset /\ 0 <= n /\ offset + n + alignment < UINT64_MODULUS
  | ReadaheadRandomAccessFile.CallInvalidateCache offset length =>
      in_range offset /\ in_range length
  end.

(** The buffer is sound: the invariant [wf], the capacity and the
    read-ahead size are multiples of the alignment, and the memory at
    [BufferStart()] has [Capacity()] bytes. *)
Definition buffer_sound (o : ReadaheadRandomAccessFile.t F) : Prop :=
  ReadaheadRandomAccessFile.wf o
  /\ AlignedBuffer.Capacity (ReadaheadRandomAccessFile.buffer_ o)
     mod ReadaheadRandomAccessFile.alignment_ o = 0
  /\ ReadaheadRandomAccessFile.readahead_size_ o
     mod ReadaheadRandomAccessFile.alignment_ o = 0
  /\ Z.of_nat (length (AlignedBuffer.BufferStart
                         (ReadaheadRandomAccessFile.buffer_ o)))
     = AlignedBuffer.Capacity (ReadaheadRandomAccessFile.buffer_ o).

(** The buffer agrees with the file: the wrapped file is stable with the
    bytes [contents], the capacity is the read-ahead size, the populated
    bytes of the buffer are the bytes of the file at the cached offset, and
    the buffer is either empty or holds all the file has in the window of
    [readahead_size_] bytes at the cached offset. *)
Definition holds_file_bytes (contents : list byte)
           (o : ReadaheadRandomAccessFile.t F) : Prop :=
  let cur := ReadaheadRandomAccessFile.CurrentSize o in
  let buffer_offset := ReadaheadRandomAccessFile.buffer_offset_ o in
  stable_file contents (ReadaheadRandomAccessFile.file_ o)
  /\ AlignedBuffer.Capacity (ReadaheadRandomAccessFile.buffer_ o)
     = ReadaheadRandomAccessFile.readahead_size_ o
  /\ memcpy_from (AlignedBuffer.BufferStart
                    (ReadaheadRandomAccessFile.buffer_ o)) 0 cur
     = memcpy_from contents buffer_offset cur
  /\ (cur = 0
      \/ (0 < cur
          /\ cur = Z.min (ReadaheadRandomAccessFile.readahead_size_ o)
                         (Z.of_nat (length contents) - buffer_offset))).

(** The reads a call issues: the entries it adds to the log, most recent
    first. *)
Definition reads_issued (before after : ReadaheadRandomAccessFile.t F)
           (l : list (Z * Z)) : Prop :=
  ReadaheadRandomAccessFile.io_log_ after
  = l ++ ReadaheadRandomAccessFile.io_log_ before.

End WithFile.
End ReadaheadInvariants.

(** db/version_builder.h: [class NewestFirstBySeqNo].  The class
    [FileMetaData] is declared elsewhere; the comparator reads
    [fd.largest_seqno], [fd.smallest_seqno] and [fd.GetNumber()] of it,
    which are taken as parameters.  The two [assert]s that the pointers are
    not null are not modelled. *)
Module NewestFirstBySeqNo.
Section WithFileMetaData.

Variable FileMetaData : Type.
Variable largest_seqno : FileMetaData -> Z.
Variable smallest_seqno : FileMetaData -> Z.
Variable GetNumber : FileMetaData -> Z.

(** [operator()(lhs, rhs)] *)
Definition call (lhs rhs : FileMetaData) : bool :=
  if negb (largest_seqno lhs =? largest_seqno rhs)
  then largest_seqno rhs <? largest_seqno lhs
  else if negb (smallest_seqno lhs =? smallest_seqno rhs)
  then smallest_seqno rhs <? smallest_seqno lhs
  else GetNumber rhs <? GetNumber lhs.

(** The fields the comparator reads. *)
Definition key (f : FileMetaData) : Z * Z * Z :=
  (largest_seqno f, smallest_seqno f, GetNumber f).

End WithFileMetaData.

(** File metadata as the triple of the three fields. *)
Definition triple_call : Z * Z * Z -> Z * Z * Z -> bool :=
  call (Z * Z * Z) (fun f => fst (fst f)) (fun f => snd (fst f)) snd.

End NewestFirstBySeqNo.

(** More concrete objects. *)
Module MoreSamples.

(** A wrapper around the reliable sample file, read-ahead 16. *)
Definition plain0 : ReadaheadRandomAccessFile.t PlainFile.t :=
  ReadaheadRandomAccessFile.new PlainFile.sample 16.

(** Calls that fill, use, invalidate and refill the buffer. *)
Definition calls : list ReadaheadRandomAccessFile.call :=
  [ReadaheadRandomAccessFile.CallRead 6 4;
   ReadaheadRandomAccessFile.CallPrefetch 20 16;
   ReadaheadRandomAccessFile.CallInvalidateCache 0 64;
   ReadaheadRandomAccessFile.CallRead 50 8;
   ReadaheadRandomAccessFile.CallRead 58 10].

(** Calls on the sample file whose bytes from offset 40 on cannot be
    read: a prefetch, a read across the end of the buffer, a prefetch that
    fails, an invalidation and a read. *)
Definition mixed_calls : list ReadaheadRandomAccessFile.call :=
  [ReadaheadRandomAccessFile.CallPrefetch 4 16;
   ReadaheadRandomAccessFile.CallRead 18 4;
   ReadaheadRandomAccessFile.CallPrefetch 32 16;
   ReadaheadRandomAccessFile.CallInvalidateCache 0 64;
   ReadaheadRandomAccessFile.CallRead 6 4].

(** A buffer that holds the 16 bytes at offset 4096, no read in flight. *)
Definition block : BufferInfo.t :=
  BufferInfo.mk (AlignedBuffer.mk 1 16 16 MemFile.sixteen) 4096 0 false
                None None 0.

(** A buffer with an asynchronous read of 100 bytes at offset 8192 in
    flight. *)
Definition block_in_flight : BufferInfo.t :=
  BufferInfo.mk AlignedBuffer.empty 8192 100 true (Some 1%nat) (Some 1%nat) 0.

(** A prefetch buffer whose queue holds the two buffers above. *)
Definition fpb_two : FilePrefetchBuffer.t :=
  FilePrefetchBuffer.set_bufs [block; block_in_flight] Samples.fpb0.

(** A vector of three pairs, as a caller passes it to
    [TEST_GetBufferOffsetandSize]. *)
Definition three_pairs : list (Z * Z) := [(7, 7); (7, 7); (7, 7)].

End MoreSamples.

(* ================================================================== *)
(** * Properties of [ReadaheadRandomAccessFile] *)

Module RAF := ReadaheadRandomAccessFile.

Lemma wrap_small (x : Z) : in_range x -> wrap x = x.
Proof. unfold in_range, wrap. intros Hx. now apply Z.mod_small. Qed.

Lemma wrap_in_range (x : Z) : in_range (wrap x).
Proof.
  unfold in_range, wrap, UINT64_MODULUS.
  apply Z.mod_pos_bound. reflexivity.
Qed.

Lemma UINT64_MODULUS_pos : 0 < UINT64_MODULUS.
Proof. reflexivity. Qed.

Lemma memcpy_from_poke (data mem : list byte) (from len : Z) :
  0 <= from -> 0 <= len -> from + len <= Z.of_nat (length data) ->
  memcpy_from (poke data mem) from len = memcpy_from data from len.
Proof.
  intros Hf Hl Hb. unfold memcpy_from, poke.
  rewrite skipn_app, firstn_app.
  replace (Z.to_nat len - length (skipn (Z.to_nat from) data))%nat with 0%nat.
  - simpl. now rewrite app_nil_r.
  - rewrite length_skipn. lia.
Qed.


Lemma TruncateToPageBoundary_aligned (page_size s : Z) :
  0 < page_size -> TruncateToPageBoundary page_size s mod page_size = 0.
Proof.
  intros Hp. unfold TruncateToPageBoundary.
  rewrite Zminus_mod_idemp_r, Z.sub_diag. now apply Z.mod_0_l, Z.neq_sym, Z.lt_neq.
Qed.

Lemma TruncateToPageBoundary_fix (page_size s : Z) :
  s mod page_size = 0 -> TruncateToPageBoundary page_size s = s.
Proof. unfold TruncateToPageBoundary. intros ->. lia. Qed.

Lemma TruncateToPageBoundary_range (page_size s : Z) :
  0 < page_size -> in_range s -> in_range (TruncateToPageBoundary page_size s).
Proof.
  unfold in_range, TruncateToPageBoundary. intros Hp Hs.
  pose proof (Z.mod_pos_bound s page_size Hp).
  pose proof (Z.mod_le s page_size ltac:(lia) Hp). lia.
Qed.

Lemma Roundup_multiple (x y : Z) : 0 < y -> Roundup x y mod y = 0.
Proof.
  intros Hy. unfold Roundup.
  pose proof (wrap_in_range (x + y - 1)) as Hr. unfold in_range in Hr.
  set (w := wrap (x + y - 1)) in *.
  assert (0 <= w / y * y <= w).
  { pose proof (Z.mul_div_le w y Hy). pose proof (Z.div_pos w y ltac:(lia) Hy).
    nia. }
  rewrite wrap_small by (unfold in_range; lia).
  now apply Z.mod_mul, Z.neq_sym, Z.lt_neq.
Qed.

Lemma Roundup_of_multiple_le (x y : Z) :
  0 < y -> in_range x -> x mod y = 0 -> Roundup x y <= x.
Proof.
  intros Hy Hx Hm. unfold Roundup.
  pose proof (wrap_in_range (x + y - 1)) as Hr. unfold in_range in Hr, Hx.
  pose proof UINT64_MODULUS_pos as HM.
  remember (wrap (x + y - 1)) as w eqn:Hw.
  assert (Hq : 0 <= w / y * y <= w).
  { pose proof (Z.mul_div_le w y Hy). pose proof (Z.div_pos w y ltac:(lia) Hy).
    nia. }
  rewrite wrap_small by (unfold in_range; lia).
  destruct (Z_lt_ge_dec (x + y - 1) UINT64_MODULUS) as [Hlt | Hge].
  - (* the sum does not wrap: a multiple is rounded up to itself *)
    rewrite wrap_small in Hw by (unfold in_range; lia). subst w.
    apply Z.mod_divide in Hm; [| lia]. destruct Hm as [k Hk]. subst x.
    replace (k * y + y - 1) with ((y - 1) + k * y) by lia.
    rewrite Z.div_add by lia. rewrite Z.div_small by lia. lia.
  - destruct (Z_lt_ge_dec y UINT64_MODULUS) as [Hylt | Hyge].
    + (* the sum wraps to a value below [x] *)
      assert (w = x + y - 1 - UINT64_MODULUS).
      { rewrite Hw. unfold wrap. symmetry.
        apply Z.mod_unique_pos with (q := 1); lia. }
      lia.
    + (* the alignment exceeds every [size_t]: the quotient is [0] *)
      rewrite Z.div_small by lia. lia.
Qed.

Section ReadaheadRandomAccessFileFacts.

Context {F : Type} `{FSRandomAccessFile F}.

Implicit Types (o : RAF.t F) (offset n : Z).

(** Unfolds the monadic operations of the wrapper. *)
Ltac raf_unfold :=
  unfold RAF.Read, RAF.Prefetch, RAF.ReadIntoBuffer, RAF.TryReadFromCache,
    RAF.InvalidateCache, RAF.file_Read, RAF.CurrentSize, RAF.set_buffer,
    RAF.set_buffer_offset, bind, gets, ret, modify in *.

(** The lookup is a pure function of the object: it changes no member and
    issues no read. *)
Lemma TryReadFromCache_pure o offset n :
  snd (RAF.TryReadFromCache offset n o) = o.
Proof. raf_unfold. now destruct (_ || _). Qed.

(** A lookup that starts inside the buffer. *)
Lemma TryReadFromCache_inside o offset n :
  in_range (RAF.buffer_offset_ o) ->
  0 <= RAF.CurrentSize o ->
  RAF.buffer_offset_ o + RAF.CurrentSize o < UINT64_MODULUS ->
  RAF.buffer_offset_ o <= offset < RAF.buffer_offset_ o + RAF.CurrentSize o ->
  let cached_len :=
    Z.min (RAF.buffer_offset_ o + RAF.CurrentSize o - offset) n in
  RAF.TryReadFromCache offset n o
  = ((true, cached_len,
      memcpy_from (AlignedBuffer.BufferStart (RAF.buffer_ o))
                  (offset - RAF.buffer_offset_ o) cached_len), o).
Proof.
  intros Hbo Hcur Hend Hin cached_len. unfold in_range in Hbo.
  raf_unfold.
  rewrite (wrap_small (_ + _)) by (unfold in_range; lia).
  replace (offset <? RAF.buffer_offset_ o) with false by (symmetry; lia).
  replace (RAF.buffer_offset_ o + AlignedBuffer.CurrentSize (RAF.buffer_ o)
           <=? offset) with false by (symmetry; lia).
  simpl.
  rewrite (wrap_small (offset - _)) by (unfold in_range; lia).
  rewrite (wrap_small (_ - (offset - _))) by (unfold in_range; lia).
  subst cached_len.
  replace (AlignedBuffer.CurrentSize (RAF.buffer_ o)
           - (offset - RAF.buffer_offset_ o))
    with (RAF.buffer_offset_ o + AlignedBuffer.CurrentSize (RAF.buffer_ o)
          - offset) by lia.
  reflexivity.
Qed.

(** What a hit says about the position of [offset]. *)
Lemma TryReadFromCache_hit o offset n len scratch :
  in_range (RAF.buffer_offset_ o) ->
  0 <= RAF.CurrentSize o < UINT64_MODULUS ->
  fst (RAF.TryReadFromCache offset n o) = (true, len, scratch) ->
  RAF.buffer_offset_ o <= offset < RAF.buffer_offset_ o + RAF.CurrentSize o
  /\ RAF.buffer_offset_ o + RAF.CurrentSize o < UINT64_MODULUS
  /\ len = Z.min (RAF.buffer_offset_ o + RAF.CurrentSize o - offset) n.
Proof.
  intros Hbo Hcur Hhit. unfold in_range in Hbo.
  assert (Hpos : RAF.buffer_offset_ o <= offset
                 < wrap (RAF.buffer_offset_ o + RAF.CurrentSize o)).
  { revert Hhit. raf_unfold.
    destruct (offset <? RAF.buffer_offset_ o) eqn:E1; simpl;
      [discriminate |].
    destruct (_ <=? offset) eqn:E2; simpl; [discriminate |].
    intros _. lia. }
  assert (Hend : RAF.buffer_offset_ o + RAF.CurrentSize o < UINT64_MODULUS).
  { destruct (Z_lt_ge_dec (RAF.buffer_offset_ o + RAF.CurrentSize o)
                          UINT64_MODULUS) as [Hlt | Hge]; [exact Hlt |].
    exfalso.
    assert (wrap (RAF.buffer_offset_ o + RAF.CurrentSize o)
            = RAF.buffer_offset_ o + RAF.CurrentSize o - UINT64_MODULUS).
    { unfold wrap. symmetry. apply Z.mod_unique_pos with (q := 1); lia. }
    lia. }
  rewrite wrap_small in Hpos by (unfold in_range; lia).
  repeat split; try lia.
  rewrite TryReadFromCache_inside in Hhit by (unfold in_range; lia).
  simpl in Hhit. congruence.
Qed.

(** [ReadIntoBuffer] issues exactly one read, of at most the capacity;
    the file writes at the start of the buffer; the offset and the size
    are set only when the read succeeds. *)
Lemma ReadIntoBuffer_eq o offset n :
  let n' := if AlignedBuffer.Capacity (RAF.buffer_ o) <? n
            then AlignedBuffer.Capacity (RAF.buffer_ o) else n in
  let s := fst (fst (fs_Read (RAF.file_ o) offset n')) in
  let data := snd (fst (fs_Read (RAF.file_ o) offset n')) in
  let f' := snd (fs_Read (RAF.file_ o) offset n') in
  let written := AlignedBuffer.Written data (RAF.buffer_ o) in
  RAF.ReadIntoBuffer offset n o
  = (s, if ok s
        then RAF.mk f' (RAF.alignment_ o) (RAF.readahead_size_ o)
               (AlignedBuffer.Size (Z.of_nat (length data)) written)
               offset ((offset, n') :: RAF.io_log_ o)
        else RAF.mk f' (RAF.alignment_ o) (RAF.readahead_size_ o)
               written (RAF.buffer_offset_ o)
               ((offset, n') :: RAF.io_log_ o)).
Proof.
  intros n' s data f' written. subst s data f' written.
  raf_unfold. fold n'.
  destruct (fs_Read (RAF.file_ o) offset n') as [[s data] f'].
  simpl. now destruct (ok s).
Qed.

(** [Read] without the monad: the three ways it returns. *)
Lemma Read_eq o offset n :
  RAF.Read offset n o
  = if RAF.readahead_size_ o <=? wrap (n + RAF.alignment_ o)
    then
      let r := fs_Read (RAF.file_ o) offset n in
      ((fst (fst r), Some (snd (fst r))),
       RAF.mk (snd r) (RAF.alignment_ o) (RAF.readahead_size_ o)
              (RAF.buffer_ o) (RAF.buffer_offset_ o)
              ((offset, n) :: RAF.io_log_ o))
    else
      let '(hit, cached_len, scratch) :=
        fst (RAF.TryReadFromCache offset n o) in
      if hit && ((cached_len =? n)
                 || (RAF.CurrentSize o <? RAF.readahead_size_ o))
      then ((IOStatus_OK, Some scratch), o)
      else
        let advanced_offset := wrap (offset + cached_len) in
        let fetch :=
          RAF.ReadIntoBuffer
            (TruncateToPageBoundary (RAF.alignment_ o) advanced_offset)
            (RAF.readahead_size_ o) o in
        if ok (fst fetch)
        then ((fst fetch,
               Some (scratch
                     ++ snd (fst (RAF.TryReadFromCache
                                    advanced_offset (n - cached_len)
                                    (snd fetch))))),
              snd fetch)
        else ((fst fetch, None), snd fetch).
Proof.
  unfold RAF.Read at 1. unfold bind at 1 2. unfold gets at 1 2.
  destruct (RAF.readahead_size_ o <=? wrap (n + RAF.alignment_ o)).
  - unfold bind, RAF.file_Read, ret.
    now destruct (fs_Read (RAF.file_ o) offset n) as [[s data] f'].
  - unfold bind at 1.
    pose proof (TryReadFromCache_pure o offset n) as Hp.
    destruct (RAF.TryReadFromCache offset n o)
      as [[[hit cached_len] scratch] o0].
    cbn [fst snd] in *. subst o0.
    unfold bind at 1, gets at 1. unfold RAF.CurrentSize.
    destruct (hit && _); [reflexivity |].
    unfold bind at 1. cbv zeta.
    destruct (RAF.ReadIntoBuffer _ _ o) as [s o1]. cbn [fst snd].
    destruct (ok s); [| reflexivity].
    unfold bind at 1.
    pose proof (TryReadFromCache_pure o1 (wrap (offset + cached_len))
                                      (n - cached_len)) as Hp1.
    destruct (RAF.TryReadFromCache _ _ o1) as [[[hit' len'] scratch'] o2].
    cbn [fst snd] in *. now subst o2.
Qed.

(** [Prefetch] without the monad. *)
Lemma Prefetch_eq o offset n :
  RAF.Prefetch offset n o
  = if n <? RAF.readahead_size_ o then (IOStatus_OK, o)
    else
      let prefetch_offset :=
        TruncateToPageBoundary (RAF.alignment_ o) offset in
      if prefetch_offset =? RAF.buffer_offset_ o then (IOStatus_OK, o)
      else RAF.ReadIntoBuffer prefetch_offset
             (wrap (Roundup (wrap (offset + n)) (RAF.alignment_ o)
                    - prefetch_offset)) o.
Proof.
  unfold RAF.Prefetch, bind, gets, ret.
  destruct (n <? RAF.readahead_size_ o); [reflexivity |].
  cbv zeta. now destruct (_ =? RAF.buffer_offset_ o).
Qed.

(** A read with [length + alignment] (as the code computes it) at least
    the read-ahead size is forwarded. *)
Lemma Read_forwards o offset n :
  RAF.readahead_size_ o <= wrap (n + RAF.alignment_ o) ->
  let r := fs_Read (RAF.file_ o) offset n in
  RAF.Read offset n o
  = ((fst (fst r), Some (snd (fst r))),
     RAF.mk (snd r) (RAF.alignment_ o) (RAF.readahead_size_ o)
            (RAF.buffer_ o) (RAF.buffer_offset_ o)
            ((offset, n) :: RAF.io_log_ o)).
Proof.
  intros Hle r. rewrite Read_eq.
  now replace (_ <=? _) with true by (symmetry; lia).
Qed.

(** ** The invariant *)

Lemma wf_new (file : F) (readahead_size : Z) :
  0 < fs_GetRequiredBufferAlignment file ->
  RAF.wf (RAF.new file readahead_size).
Proof.
  intros Hal. unfold RAF.wf, RAF.new, RAF.CurrentSize. simpl.
  set (al := fs_GetRequiredBufferAlignment file) in *.
  pose proof (Roundup_multiple readahead_size al Hal) as Hm.
  assert (Hr : in_range (Roundup readahead_size al))
    by (unfold Roundup; apply wrap_in_range).
  pose proof (Roundup_of_multiple_le _ al Hal Hr Hm) as Hle.
  assert (Hc : in_range (Roundup (Roundup readahead_size al) al))
    by (unfold Roundup at 1; apply wrap_in_range).
  unfold in_range in *. pose proof UINT64_MODULUS_pos.
  repeat split; lia.
Qed.

Lemma wf_ReadIntoBuffer o offset n :
  reads_at_most -> RAF.wf o -> in_range offset ->
  offset mod RAF.alignment_ o = 0 ->
  RAF.wf (snd (RAF.ReadIntoBuffer offset n o)).
Proof.
  intros Hfile (Hal & Hbo & Hm & Hcur & Hcap & Hra) Hoff Hom.
  rewrite ReadIntoBuffer_eq. cbv zeta. simpl snd.
  set (n' := if _ <? n then _ else n).
  pose proof (Hfile (RAF.file_ o) offset n') as Hlen.
  assert (Hn' : n' <= AlignedBuffer.Capacity (RAF.buffer_ o)).
  { subst n'. destruct (Z.ltb_spec (AlignedBuffer.Capacity (RAF.buffer_ o)) n);
      lia. }
  unfold RAF.CurrentSize, AlignedBuffer.CurrentSize, AlignedBuffer.Capacity,
    in_range in *.
  destruct (ok _);
    unfold RAF.wf, RAF.CurrentSize, AlignedBuffer.CurrentSize,
      AlignedBuffer.Capacity, in_range; simpl;
    repeat split; try assumption; lia.
Qed.

Lemma wf_exec o (c : RAF.call) :
  reads_at_most -> RAF.wf o -> RAF.call_in_range c -> RAF.wf (RAF.exec c o).
Proof.
  intros Hfile Hwf Hc.
  pose proof Hwf as (Hal & Hbo & Hm & Hcur & Hcap & Hra).
  destruct c as [offset n | offset n | offset len]; simpl.
  - (* Read *)
    rewrite Read_eq.
    destruct (_ <=? _).
    + simpl. exact Hwf.
    + destruct (fst (RAF.TryReadFromCache offset n o)) as [[hit len] scratch].
      destruct (hit && _); [exact Hwf |].
      cbv zeta.
      assert (RAF.wf (snd (RAF.ReadIntoBuffer
                (TruncateToPageBoundary (RAF.alignment_ o)
                                        (wrap (offset + len)))
                (RAF.readahead_size_ o) o))) as Hwf'.
      { apply wf_ReadIntoBuffer; auto.
        - apply TruncateToPageBoundary_range; auto using wrap_in_range.
        - now apply TruncateToPageBoundary_aligned. }
      now destruct (ok _).
  - (* Prefetch *)
    rewrite Prefetch_eq.
    destruct (n <? _); [exact Hwf |]. cbv zeta.
    destruct (_ =? _); [exact Hwf |].
    apply wf_ReadIntoBuffer; auto.
    + apply TruncateToPageBoundary_range; auto. apply Hc.
    + now apply TruncateToPageBoundary_aligned.
  - (* InvalidateCache *)
    unfold RAF.InvalidateCache, bind, modify, RAF.set_buffer.
    destruct (fs_InvalidateCache _ _ _) as [s f']. simpl.
    unfold RAF.wf, RAF.CurrentSize, AlignedBuffer.CurrentSize,
      AlignedBuffer.Capacity, in_range in *.
    simpl. repeat split; lia.
Qed.

Lemma wf_exec_all (cs : list RAF.call) o :
  reads_at_most -> RAF.wf o -> Forall RAF.call_in_range cs ->
  RAF.wf (RAF.exec_all cs o).
Proof.
  intros Hfile. revert o.
  induction cs as [| c cs IH]; intros o Hwf Hcs; simpl.
  - exact Hwf.
  - inversion Hcs; subst. apply IH; [apply wf_exec |]; assumption.
Qed.

(** Under the invariant a prefetch of a range the lookup fully covers
    changes nothing. *)
Lemma Prefetch_covered_noop o offset n :
  RAF.wf o -> RAF.covers offset n o ->
  RAF.Prefetch offset n o = (IOStatus_OK, o).
Proof.
  intros (Hal & Hbo & Hm & Hcur & Hcap & Hra) [scratch Hhit].
  rewrite Prefetch_eq.
  destruct (Z.ltb_spec n (RAF.readahead_size_ o)) as [| Hn]; [reflexivity |].
  apply TryReadFromCache_hit in Hhit; [| assumption | lia].
  destruct Hhit as (Hpos & Hend & Hlen).
  assert (offset = RAF.buffer_offset_ o) as -> by lia.
  cbv zeta. rewrite TruncateToPageBoundary_fix by assumption.
  now rewrite Z.eqb_refl.
Qed.


(** ** The claims about the wrapper *)

(** The full hit in the state a fetch leaves.  Let
    [ReadIntoBuffer fetch_offset fetch_n] succeed and let [data] be the
    bytes the file delivered to it.  For every range [offset, offset + n)
    that starts inside the fetched block and ends within it,
    [TryReadFromCache] reports a hit of [n] bytes, the bytes it copies are
    the bytes of [data] at that range, and the whole object, the file and
    the log of issued reads included, is as before: no read is issued.
    [Read] on its cache path returns these bytes with status OK and does
    not issue a read either.  This is the state right after the fetch; a
    later fetch that fails breaks it (see
    [failed_fetch_keeps_the_block_over_other_bytes]). *)
Lemma full_hit_right_after_fetch o fetch_offset fetch_n offset n :
  let fetch_n' :=
    if AlignedBuffer.Capacity (RAF.buffer_ o) <? fetch_n
    then AlignedBuffer.Capacity (RAF.buffer_ o) else fetch_n in
  let data := snd (fst (fs_Read (RAF.file_ o) fetch_offset fetch_n')) in
  let o' := snd (RAF.ReadIntoBuffer fetch_offset fetch_n o) in
  ok (fst (RAF.ReadIntoBuffer fetch_offset fetch_n o)) = true ->
  in_range fetch_offset ->
  fetch_offset + Z.of_nat (length data) < UINT64_MODULUS ->
  fetch_offset <= offset < fetch_offset + Z.of_nat (length data) ->
  0 <= n ->
  offset + n <= fetch_offset + Z.of_nat (length data) ->
  RAF.TryReadFromCache offset n o'
  = ((true, n, memcpy_from data (offset - fetch_offset) n), o')
  /\ RAF.io_log_ (snd (RAF.TryReadFromCache offset n o')) = RAF.io_log_ o'
  /\ (wrap (n + RAF.alignment_ o') < RAF.readahead_size_ o' ->
      RAF.Read offset n o'
      = ((IOStatus_OK, Some (memcpy_from data (offset - fetch_offset) n)),
         o')).
Proof.
  intros fetch_n' data o' Hok Hfo Hend Hin Hn Hfit.
  assert (Ho' : RAF.buffer_offset_ o' = fetch_offset
                /\ RAF.CurrentSize o' = Z.of_nat (length data)
                /\ AlignedBuffer.BufferStart (RAF.buffer_ o')
                   = poke data (AlignedBuffer.BufferStart (RAF.buffer_ o))).
  { subst o'. revert Hok. rewrite ReadIntoBuffer_eq. cbv zeta.
    fold fetch_n'. fold data. cbn [fst snd]. intros ->.
    unfold RAF.CurrentSize. simpl. auto. }
  destruct Ho' as (Hbo & Hcur & Hmem).
  assert (Hlookup : RAF.TryReadFromCache offset n o'
           = ((true, n, memcpy_from data (offset - fetch_offset) n), o')).
  { rewrite TryReadFromCache_inside;
      [| rewrite ?Hbo, ?Hcur; (assumption || lia) ..].
    cbv zeta. rewrite Hbo, Hcur, Hmem.
    rewrite Z.min_r by lia.
    rewrite memcpy_from_poke by lia. reflexivity. }
  repeat split.
  - exact Hlookup.
  - now rewrite Hlookup.
  - intros Hsmall. rewrite Read_eq.
    replace (_ <=? _) with false by (symmetry; lia).
    rewrite Hlookup. cbn [fst]. now rewrite Z.eqb_refl.
Qed.

(** A prefetch that succeeded, repeated on the state it left, does
    nothing. *)
Lemma Prefetch_repeated_noop o offset n :
  ok (fst (RAF.Prefetch offset n o)) = true ->
  RAF.Prefetch offset n (snd (RAF.Prefetch offset n o))
  = (IOStatus_OK, snd (RAF.Prefetch offset n o)).
Proof.
  rewrite (Prefetch_eq o).
  destruct (n <? RAF.readahead_size_ o) eqn:En.
  - intros _. simpl. rewrite Prefetch_eq. now rewrite En.
  - cbv zeta.
    destruct (_ =? RAF.buffer_offset_ o) eqn:Eo.
    + intros _. simpl. rewrite Prefetch_eq. rewrite En. cbv zeta.
      now rewrite Eo.
    + rewrite ReadIntoBuffer_eq. cbv zeta. cbn [fst snd]. intros Hok.
      rewrite Hok. rewrite Prefetch_eq. simpl. rewrite En.
      now rewrite Z.eqb_refl.
Qed.

(** A fetch that fails keeps the cached offset and the current size, and
    leaves at the start of the buffer the bytes [data] that the file wrote
    before it failed: the buffer still announces the block it held, over
    other bytes. *)
Lemma failed_fetch_keeps_the_block_over_other_bytes o offset n :
  let n' := if AlignedBuffer.Capacity (RAF.buffer_ o) <? n
            then AlignedBuffer.Capacity (RAF.buffer_ o) else n in
  let data := snd (fst (fs_Read (RAF.file_ o) offset n')) in
  let o' := snd (RAF.ReadIntoBuffer offset n o) in
  ok (fst (RAF.ReadIntoBuffer offset n o)) = false ->
  RAF.buffer_offset_ o' = RAF.buffer_offset_ o
  /\ RAF.CurrentSize o' = RAF.CurrentSize o
  /\ AlignedBuffer.BufferStart (RAF.buffer_ o')
     = poke data (AlignedBuffer.BufferStart (RAF.buffer_ o)).
Proof.
  intros n' data o'. subst o'. rewrite ReadIntoBuffer_eq. cbv zeta.
  fold n'. fold data. cbn [fst snd]. intros ->.
  unfold RAF.CurrentSize. simpl. auto.
Qed.

(** C5 (idempotent prefetch).  In every state the wrapper reaches from
    its construction, when the lookup of the read path covers the whole
    range [offset, offset + n), [Prefetch offset n] returns OK and leaves
    the object, the file and the log of issued reads included, as it
    was.  In particular a prefetch that succeeded, when it is repeated,
    returns OK and changes nothing. *)
Theorem C5_prefetch_of_covered_range_is_noop
        (file : F) (readahead_size : Z) (cs : list RAF.call) offset n :
  let o := RAF.exec_all cs (RAF.new file readahead_size) in
  reads_at_most ->
  0 < fs_GetRequiredBufferAlignment file ->
  Forall RAF.call_in_range cs ->
  (RAF.covers offset n o ->
   RAF.Prefetch offset n o = (IOStatus_OK, o))
  /\ (ok (fst (RAF.Prefetch offset n o)) = true ->
      RAF.Prefetch offset n (snd (RAF.Prefetch offset n o))
      = (IOStatus_OK, snd (RAF.Prefetch offset n o))).
Proof.
  intros o Hfile Hal Hcs. split.
  - intros Hcov. apply Prefetch_covered_noop; [| exact Hcov].
    apply wf_exec_all; auto using wf_new.
  - apply Prefetch_repeated_noop.
Qed.

(** C6, as amended.  When the read that [Prefetch] issues fails,
    [Prefetch] returns the status of that read unchanged, and the cached
    offset and the current size of the buffer are what they were before
    the call. *)
Theorem C6_failed_prefetch_keeps_offset_and_size o offset n :
  let s := fst (RAF.Prefetch offset n o) in
  let o' := snd (RAF.Prefetch offset n o) in
  ok s = false ->
  (exists offset' n',
      RAF.io_log_ o' = (offset', n') :: RAF.io_log_ o
      /\ s = fst (fst (fs_Read (RAF.file_ o) offset' n')))
  /\ RAF.buffer_offset_ o' = RAF.buffer_offset_ o
  /\ RAF.CurrentSize o' = RAF.CurrentSize o.
Proof.
  intros s o'. subst s o'. rewrite Prefetch_eq.
  destruct (n <? _); [discriminate |]. cbv zeta.
  destruct (_ =? _); [discriminate |].
  rewrite ReadIntoBuffer_eq. cbv zeta. cbn [fst snd].
  intros ->. unfold RAF.CurrentSize. simpl.
  split; [| split; reflexivity].
  eexists _, _. split; reflexivity.
Qed.


(** C9 (large reads bypass the cache).  When the length plus the
    alignment, a sum that fits [size_t], is at least the read-ahead size,
    [Read] returns what the underlying file returns for the same offset
    and length, issues this one read, and leaves the cache buffer and the
    cached offset unchanged. *)
Theorem C9_large_read_bypasses_cache o offset n :
  let r := fs_Read (RAF.file_ o) offset n in
  let o' := snd (RAF.Read offset n o) in
  in_range (n + RAF.alignment_ o) ->
  RAF.readahead_size_ o <= n + RAF.alignment_ o ->
  fst (RAF.Read offset n o) = (fst (fst r), Some (snd (fst r)))
  /\ RAF.buffer_ o' = RAF.buffer_ o
  /\ RAF.buffer_offset_ o' = RAF.buffer_offset_ o
  /\ RAF.file_ o' = snd r
  /\ RAF.io_log_ o' = (offset, n) :: RAF.io_log_ o.
Proof.
  intros r o' Hfit Hle. subst o'.
  rewrite Read_forwards by (rewrite wrap_small; assumption).
  simpl. auto.
Qed.

(** C10 (small prefetches are ignored).  A [Prefetch] of fewer bytes than
    the read-ahead size returns OK and leaves the whole object unchanged:
    no read is issued and the buffer is not modified, whether or not the
    range is covered. *)
Theorem C10_small_prefetch_is_noop o offset n :
  n < RAF.readahead_size_ o ->
  RAF.Prefetch offset n o = (IOStatus_OK, o).
Proof.
  intros Hn. rewrite Prefetch_eq.
  now replace (_ <? _) with true by (symmetry; lia).
Qed.

End ReadaheadRandomAccessFileFacts.

(* ================================================================== *)
(** * Properties of [FilePrefetchBuffer] *)

Module FPB := FilePrefetchBuffer.

Section FilePrefetchBufferFacts.

Implicit Types (o : FPB.t) (x : FPB.op) (offset n len value : Z).






(** A new prefetch buffer starts within the maximum when the configured
    initial size is. *)
Lemma new_within_max (p : ReadaheadParams.t) (enable track_min_offset : bool) :
  ReadaheadParams.initial_readahead_size p
  <= ReadaheadParams.max_readahead_size p ->
  FPB.readahead_within_max (FPB.new p enable track_min_offset).
Proof. intros Hcfg. exact Hcfg. Qed.





(** C3 (a break of the chain shrinks).  In a state whose pattern has been
    sequential (the counter is positive) and whose read-ahead size is
    above the initial size, a read at an offset that does not continue
    the previous read, recorded with [UpdateReadPattern], lowers the
    read-ahead size by the default decrement of 8 KiB, but not below the
    initial size, and resets the counter of sequential reads to zero.
    [DecreaseReadAheadIfEligible] does the same for every decrement. *)
Theorem C3_chain_break_decrements o offset len :
  let o' := FPB.UpdateReadPattern offset len true o in
  FPB.IsBlockSequential offset o = false ->
  0 < FPB.num_file_reads_ o ->
  FPB.initial_auto_readahead_size_ o < FPB.readahead_size_ o ->
  DEFAULT_DECREMENT = 8192
  /\ FPB.readahead_size_ o'
     = Z.max (FPB.initial_auto_readahead_size_ o)
             (FPB.readahead_size_ o - DEFAULT_DECREMENT)
  /\ FPB.initial_auto_readahead_size_ o <= FPB.readahead_size_ o'
  /\ (FPB.initial_auto_readahead_size_ o + DEFAULT_DECREMENT
      <= FPB.readahead_size_ o ->
      FPB.readahead_size_ o' = FPB.readahead_size_ o - DEFAULT_DECREMENT)
  /\ FPB.num_file_reads_ o' = 0
  /\ (forall value,
         let o'' := FPB.DecreaseReadAheadIfEligible offset len value o in
         FPB.readahead_size_ o''
         = Z.max (FPB.initial_auto_readahead_size_ o)
                 (FPB.readahead_size_ o - value)
         /\ FPB.num_file_reads_ o'' = 0).
Proof.
  intros o' Hbreak Hseq Hgrown.
  assert (Hel : FPB.IsEligibleForDecrease o = true).
  { unfold FPB.IsEligibleForDecrease.
    apply andb_true_intro. split; apply Z.ltb_lt; assumption. }
  assert (Hdec : forall value,
             FPB.readahead_size_
               (FPB.DecreaseReadAheadIfEligible offset len value o)
             = Z.max (FPB.initial_auto_readahead_size_ o)
                     (FPB.readahead_size_ o - value)
             /\ FPB.num_file_reads_
                  (FPB.DecreaseReadAheadIfEligible offset len value o) = 0).
  { intros value. unfold FPB.DecreaseReadAheadIfEligible.
    rewrite Hbreak, Hel. simpl. split; reflexivity. }
  assert (Hsize : FPB.readahead_size_ o'
                  = Z.max (FPB.initial_auto_readahead_size_ o)
                          (FPB.readahead_size_ o - DEFAULT_DECREMENT)).
  { subst o'. unfold FPB.UpdateReadPattern. simpl.
    apply (Hdec DEFAULT_DECREMENT). }
  split; [reflexivity |]. split; [exact Hsize |].
  split; [lia |]. split; [lia |]. split; [| exact Hdec].
  subst o'. unfold FPB.UpdateReadPattern. simpl.
  apply (Hdec DEFAULT_DECREMENT).
Qed.

(** ** The queue of buffers *)








(** ** The order of the queue *)
















(** C8, as amended.  On an empty queue [GetFirstBuffer] and
    [GetLastBuffer] fail with [PreconditionViolation], while
    [GetPrefetchOffset] has no guard: it calls [front()] on the empty
    queue, which is undefined.  On a queue that is not empty all three
    return: the first two the front and the back block, the third the
    offset of the front block. *)
Theorem C8_empty_queue_first_last_and_prefetch_offset o :
  match FPB.bufs_ o with
  | [] =>
      FPB.IsBufferQueueEmpty o = true
      /\ FPB.GetFirstBuffer o = PreconditionViolation
      /\ FPB.GetLastBuffer o = PreconditionViolation
      /\ FPB.GetPrefetchOffset o = UndefinedBehaviour
  | front :: rest =>
      FPB.IsBufferQueueEmpty o = false
      /\ FPB.GetFirstBuffer o = Returns front
      /\ FPB.GetLastBuffer o = Returns (last rest front)
      /\ FPB.GetPrefetchOffset o = Returns (BufferInfo.offset_ front)
  end.
Proof.
  unfold FPB.IsBufferQueueEmpty, FPB.GetFirstBuffer, FPB.GetLastBuffer,
    FPB.GetPrefetchOffset.
  destruct (FPB.bufs_ o) as [| front rest] eqn:E; simpl.
  - repeat split; reflexivity.
  - repeat split; try reflexivity.
    destruct (rev rest ++ [front]) as [| b l] eqn:Er.
    + now destruct (rev rest).
    + f_equal.
      assert (Hrev : rev (front :: rest) = b :: l) by exact Er.
      apply (f_equal (@rev _)) in Hrev. rewrite rev_involutive in Hrev.
      simpl in Hrev.
      destruct (rev l) as [| c l'] eqn:El.
      * simpl in Hrev. inversion Hrev; subst. reflexivity.
      * simpl in Hrev. inversion Hrev; subst.
        rewrite last_last. reflexivity.
Qed.

End FilePrefetchBufferFacts.

(* ================================================================== *)
(** * The operations on concrete objects *)

Lemma MemFile_reads_at_most : @reads_at_most MemFile.t MemFile.file.
Proof.
  intros f offset n. simpl. unfold MemFile.Read.
  destruct (Z.leb_spec (offset + n) (MemFile.bad_from_ f)); simpl;
    unfold memcpy_from; rewrite length_firstn; lia.
Qed.

(** The tests of section 8 of the specification, run on the model. *)

Example sequential_growth :
  FPB.GetReadaheadState (FPB.run Samples.three_misses Samples.fpb0) = (8192, 3)
  /\ FPB.GetReadaheadState (FPB.run Samples.four_misses Samples.fpb0)
     = (16384, 4).
Proof. split; reflexivity. Qed.

Example pattern_break_shrink :
  FPB.GetReadaheadState
    (FPB.run (Samples.four_misses ++ [FPB.OpTryReadFromCache 100 10 false])
             Samples.fpb0) = (8192, 0)
  /\ FPB.GetReadaheadState
       (FPB.run (Samples.three_misses ++ [FPB.OpTryReadFromCache 100 10 false])
                Samples.fpb0) = (4096, 0).
Proof. split; reflexivity. Qed.

Example capacity_bound :
  map BufferInfo.offset_ (FPB.bufs_ (FPB.run Samples.two_blocks Samples.fpb0))
  = [0; 4096]
  /\ map BufferInfo.offset_
         (FPB.bufs_ (FPB.run (Samples.two_blocks
                                ++ [FPB.OpAcquireBuffer;
                                    FPB.OpCompleteFetch 8192 MemFile.sixteen])
                             Samples.fpb0))
     = [4096; 8192].
Proof. split; reflexivity. Qed.

(** A read that the buffer satisfies in part and completes with a fetch. *)
Example read_across_the_buffer_end :
  fst (RAF.Read 18 4 Samples.raf_full)
  = (IOStatus_OK, Some [Byte.x02; Byte.x03; Byte.x04; Byte.x05])
  /\ RAF.io_log_ (snd (RAF.Read 18 4 Samples.raf_full)) = [(20, 16); (4, 16)].
Proof. split; reflexivity. Qed.

(** A fetch that fails after the file has written part of the data leaves
    the cached offset and size in place over the bytes of the failed
    fetch: the lookup then returns bytes of offset 32 for offset 4. *)
Example failed_fetch_overwrites_cached_bytes :
  let o := snd (RAF.Prefetch 32 16 Samples.raf_full) in
  fst (RAF.TryReadFromCache 4 4 Samples.raf_full)
  = (true, 4, [Byte.x04; Byte.x05; Byte.x06; Byte.x07])
  /\ code (fst (RAF.Prefetch 32 16 Samples.raf_full)) = kIOError
  /\ fst (RAF.TryReadFromCache 4 4 o)
     = (true, 4, [Byte.x00; Byte.x01; Byte.x02; Byte.x03]).
Proof. cbv zeta. repeat split; reflexivity. Qed.

(** On a fresh wrapper the cached offset is 0, so a prefetch at offset 0
    returns without a read. *)
Example first_prefetch_at_offset_zero :
  RAF.Prefetch 0 16 Samples.raf0 = (IOStatus_OK, Samples.raf0).
Proof. reflexivity. Qed.

(** ** The theorems at concrete inputs *)

(** Closes the side conditions of an instance: a comparison of numerals or
    an equation between closed terms. *)
Ltac closed_condition :=
  unfold in_range, UINT64_MODULUS;
  repeat match goal with |- _ /\ _ => split end;
  vm_compute; first [reflexivity | discriminate | lia].

Lemma full_hit_right_after_fetch_at_sample :
  RAF.TryReadFromCache 6 4 Samples.raf_half
  = ((true, 4, [Byte.x06; Byte.x07; Byte.x08; Byte.x09]), Samples.raf_half)
  /\ RAF.io_log_ (snd (RAF.TryReadFromCache 6 4 Samples.raf_half)) = [(4, 8)]
  /\ RAF.Read 6 4 Samples.raf_half
     = ((IOStatus_OK, Some [Byte.x06; Byte.x07; Byte.x08; Byte.x09]),
        Samples.raf_half).
Proof.
  unshelve epose proof
    (full_hit_right_after_fetch Samples.raf0 4 8 6 4 _ _ _ _ _ _)
    as (Hlookup & Hlog & Hread).
  1-6: closed_condition.
  split; [exact Hlookup |]. split; [exact Hlog |].
  apply Hread. closed_condition.
Defined.

(** C1.  The code at the input on which the claim fails.  [Prefetch(4, 16)]
    succeeds and populates the block at offset 4, whose first four bytes
    are the bytes [04 05 06 07] of the file.  [Prefetch(32, 16)] then fails
    and keeps the cached offset 4 and the current size 16.  The range
    [4, 8) lies inside the block the buffer announces: the lookup reports
    a full hit and [Read] returns OK, both without a read of the file, but
    the bytes are [00 01 02 03], which the failed read wrote, and not the
    bytes fetched for that range. *)
Theorem C1_full_hit_after_failed_fetch :
  let o1 := snd (RAF.Prefetch 4 16 Samples.raf0) in
  let o2 := snd (RAF.Prefetch 32 16 o1) in
  ok (fst (RAF.Prefetch 4 16 Samples.raf0)) = true
  /\ RAF.TryReadFromCache 4 4 o1
     = ((true, 4, [Byte.x04; Byte.x05; Byte.x06; Byte.x07]), o1)
  /\ ok (fst (RAF.Prefetch 32 16 o1)) = false
  /\ RAF.buffer_offset_ o2 = 4
  /\ RAF.CurrentSize o2 = 16
  /\ RAF.TryReadFromCache 4 4 o2
     = ((true, 4, [Byte.x00; Byte.x01; Byte.x02; Byte.x03]), o2)
  /\ RAF.Read 4 4 o2
     = ((IOStatus_OK, Some [Byte.x00; Byte.x01; Byte.x02; Byte.x03]), o2)
  /\ memcpy_from (MemFile.contents_ MemFile.sample) 4 4
     = [Byte.x04; Byte.x05; Byte.x06; Byte.x07].
Proof. cbv zeta. repeat split; vm_compute; reflexivity. Qed.

Lemma C5_witness :
  RAF.covers 4 16 Samples.raf_full
  /\ RAF.Prefetch 4 16 Samples.raf_full = (IOStatus_OK, Samples.raf_full)
  /\ RAF.Prefetch 4 16 (snd (RAF.Prefetch 4 16 Samples.raf0))
     = (IOStatus_OK, snd (RAF.Prefetch 4 16 Samples.raf0)).
Proof.
  assert (Hcov : RAF.covers 4 16 Samples.raf_full)
    by (eexists; vm_compute; reflexivity).
  unshelve epose proof
    (C5_prefetch_of_covered_range_is_noop
       MemFile.sample 16 [RAF.CallPrefetch 4 16] 4 16 _ _ _)
    as (Hnoop & _).
  1: exact MemFile_reads_at_most.
  1: closed_condition.
  1: repeat constructor; closed_condition.
  unshelve epose proof
    (C5_prefetch_of_covered_range_is_noop MemFile.sample 16 [] 4 16 _ _ _)
    as (_ & Hagain).
  1: exact MemFile_reads_at_most.
  1: closed_condition.
  1: constructor.
  split; [exact Hcov |]. split; [exact (Hnoop Hcov) |].
  apply Hagain. closed_condition.
Defined.

(** After a successful prefetch the buffer holds 16 bytes; a prefetch that
    fails leaves them in place: the current size is 16, not 0. *)
Lemma C6_counterexample :
  let r := RAF.Prefetch 32 16 Samples.raf_full in
  RAF.CurrentSize Samples.raf_full = 16
  /\ ok (fst r) = false
  /\ code (fst r) = kIOError
  /\ RAF.CurrentSize (snd r) = 16
  /\ RAF.CurrentSize (snd r) <> 0.
Proof. cbv zeta. repeat split; vm_compute; (reflexivity || discriminate). Qed.

Lemma C6_witness :
  (exists offset' n',
      RAF.io_log_ (snd (RAF.Prefetch 32 16 Samples.raf_full))
      = (offset', n') :: RAF.io_log_ Samples.raf_full
      /\ fst (RAF.Prefetch 32 16 Samples.raf_full)
         = fst (fst (fs_Read (RAF.file_ Samples.raf_full) offset' n')))
  /\ RAF.buffer_offset_ (snd (RAF.Prefetch 32 16 Samples.raf_full)) = 4
  /\ RAF.CurrentSize (snd (RAF.Prefetch 32 16 Samples.raf_full)) = 16.
Proof.
  unshelve epose proof
    (C6_failed_prefetch_keeps_offset_and_size Samples.raf_full 32 16 _) as W.
  1: closed_condition.
  exact W.
Defined.



Lemma C9_witness :
  fst (RAF.Read 8 12 Samples.raf_half)
  = (IOStatus_OK,
     Some [Byte.x08; Byte.x09; Byte.x0a; Byte.x0b; Byte.x0c; Byte.x0d;
           Byte.x0e; Byte.x0f; Byte.x00; Byte.x01; Byte.x02; Byte.x03])
  /\ RAF.buffer_ (snd (RAF.Read 8 12 Samples.raf_half))
     = RAF.buffer_ Samples.raf_half
  /\ RAF.buffer_offset_ (snd (RAF.Read 8 12 Samples.raf_half)) = 4
  /\ RAF.file_ (snd (RAF.Read 8 12 Samples.raf_half)) = MemFile.sample
  /\ RAF.io_log_ (snd (RAF.Read 8 12 Samples.raf_half)) = [(8, 12); (4, 8)].
Proof.
  unshelve epose proof
    (C9_large_read_bypasses_cache Samples.raf_half 8 12 _ _) as W.
  1-2: closed_condition.
  exact W.
Defined.

Lemma C10_witness :
  RAF.Prefetch 20 8 Samples.raf_half = (IOStatus_OK, Samples.raf_half).
Proof.
  unshelve epose proof
    (C10_small_prefetch_is_noop Samples.raf_half 20 8 _) as W.
  1: closed_condition.
  exact W.
Defined.


Lemma C3_witness :
  let o := FPB.run Samples.four_misses Samples.fpb0 in
  FPB.readahead_size_ o = 16384
  /\ FPB.readahead_size_ (FPB.UpdateReadPattern 100 10 true o) = 16384 - 8192
  /\ FPB.num_file_reads_ (FPB.UpdateReadPattern 100 10 true o) = 0.
Proof.
  cbv zeta.
  unshelve epose proof
    (C3_chain_break_decrements
       (FPB.run Samples.four_misses Samples.fpb0) 100 10 _ _ _)
    as (_ & _ & _ & Hexact & Hcount & _).
  1-3: closed_condition.
  split; [reflexivity |]. split; [| exact Hcount].
  apply Hexact. closed_condition.
Defined.



(** The queue of a fresh prefetch buffer is empty, and querying its
    prefetch offset does not fail with [PreconditionViolation]: the call is
    [front()] on an empty queue. *)
Lemma C8_counterexample :
  FPB.IsBufferQueueEmpty Samples.fpb0 = true
  /\ FPB.GetPrefetchOffset Samples.fpb0 = UndefinedBehaviour
  /\ FPB.GetPrefetchOffset Samples.fpb0 <> PreconditionViolation.
Proof. repeat split; vm_compute; (reflexivity || discriminate). Qed.


(* ================================================================== *)
(** * Further properties of [ReadaheadRandomAccessFile] *)

Module RI := ReadaheadInvariants.

(** ** Ranges of bytes *)

Lemma memcpy_from_length (c : list byte) (from len : Z) :
  0 <= from -> 0 <= len ->
  Z.of_nat (length (memcpy_from c from len))
  = Z.min len (Z.max 0 (Z.of_nat (length c) - from)).
Proof.
  intros Hf Hl. unfold memcpy_from.
  rewrite length_firstn, length_skipn. lia.
Qed.

Lemma memcpy_from_length_le (c : list byte) (from len : Z) :
  Z.of_nat (length (memcpy_from c from len)) <= Z.max 0 len.
Proof. unfold memcpy_from. rewrite length_firstn. lia. Qed.

Lemma memcpy_from_zero (c : list byte) (from : Z) : memcpy_from c from 0 = [].
Proof. reflexivity. Qed.

(** A range of a range. *)
Lemma memcpy_from_memcpy_from (c : list byte) (from m k len : Z) :
  0 <= from -> 0 <= k -> 0 <= len -> k + len <= m ->
  memcpy_from (memcpy_from c from m) k len = memcpy_from c (from + k) len.
Proof.
  intros Hf Hk Hl Hm. unfold memcpy_from.
  rewrite skipn_firstn_comm, firstn_firstn, skipn_skipn.
  replace (Init.Nat.min (Z.to_nat len) (Z.to_nat m - Z.to_nat k))
    with (Z.to_nat len) by lia.
  replace (Z.to_nat k + Z.to_nat from)%nat with (Z.to_nat (from + k)) by lia.
  reflexivity.
Qed.

Lemma firstn_plus {A : Type} (a b : nat) (l : list A) :
  firstn (a + b) l = firstn a l ++ firstn b (skipn a l).
Proof.
  revert l. induction a as [| a IH]; intros l; [reflexivity |].
  destruct l as [| x l]; simpl.
  - now rewrite firstn_nil.
  - now rewrite IH.
Qed.

(** A range read in two parts. *)
Lemma memcpy_from_split (c : list byte) (from k n : Z) :
  0 <= from -> 0 <= k <= n ->
  memcpy_from c from n
  = memcpy_from c from k ++ memcpy_from c (from + k) (n - k).
Proof.
  intros Hf Hk. unfold memcpy_from.
  replace (Z.to_nat n) with (Z.to_nat k + Z.to_nat (n - k))%nat by lia.
  rewrite firstn_plus, skipn_skipn.
  replace (Z.to_nat k + Z.to_nat from)%nat with (Z.to_nat (from + k)) by lia.
  reflexivity.
Qed.

(** A range that reaches the end of the file is the same however much
    more is asked for. *)
Lemma memcpy_from_past_end (c : list byte) (from k n : Z) :
  0 <= from -> 0 <= k <= n -> Z.of_nat (length c) <= from + k ->
  memcpy_from c from n = memcpy_from c from k.
Proof.
  intros Hf Hk Hend. unfold memcpy_from.
  rewrite !firstn_all2; [reflexivity | |]; rewrite length_skipn; lia.
Qed.

(** ** Rounding *)

Lemma Roundup_bounds (x y : Z) :
  0 < y -> 0 <= x -> x + y - 1 < UINT64_MODULUS ->
  x <= Roundup x y < x + y.
Proof.
  intros Hy Hx Hfit. unfold Roundup.
  rewrite (wrap_small (x + y - 1)) by (unfold in_range; lia).
  pose proof (Z.mul_div_le (x + y - 1) y Hy) as Hle.
  pose proof (Z.mul_succ_div_gt (x + y - 1) y Hy) as Hgt.
  pose proof (Z.div_pos (x + y - 1) y ltac:(lia) Hy) as Hq.
  rewrite wrap_small by (unfold in_range; nia).
  nia.
Qed.

Lemma Roundup_of_multiple_eq (x y : Z) :
  0 < y -> 0 <= x -> x + y - 1 < UINT64_MODULUS -> x mod y = 0 ->
  Roundup x y = x.
Proof.
  intros Hy Hx Hfit Hm.
  pose proof (Roundup_bounds x y Hy Hx Hfit) as Hb.
  pose proof (Roundup_multiple x y Hy) as Hr.
  apply Z.mod_divide in Hm; [| lia]. apply Z.mod_divide in Hr; [| lia].
  destruct Hm as [k Hk]. destruct Hr as [j Hj].
  rewrite Hj, Hk in *.
  assert (k <= j) by (apply Z.mul_le_mono_pos_r with (p := y); lia).
  assert (j < k + 1) by (apply Z.mul_lt_mono_pos_r with (p := y); lia).
  replace j with k by lia. reflexivity.
Qed.

Section ReadaheadRandomAccessFileMore.

Context {F : Type} `{FSRandomAccessFile F}.

Implicit Types (o : RAF.t F) (offset n : Z) (c : RAF.call).

(** ** What the calls keep *)

Lemma ReadIntoBuffer_constants o offset n :
  let o' := snd (RAF.ReadIntoBuffer offset n o) in
  RAF.alignment_ o' = RAF.alignment_ o
  /\ RAF.readahead_size_ o' = RAF.readahead_size_ o
  /\ AlignedBuffer.Capacity (RAF.buffer_ o')
     = AlignedBuffer.Capacity (RAF.buffer_ o).
Proof.
  cbv zeta. rewrite ReadIntoBuffer_eq. cbv zeta. cbn [snd].
  destruct (ok _); simpl; auto.
Qed.

Lemma exec_constants o c :
  RAF.alignment_ (RAF.exec c o) = RAF.alignment_ o
  /\ RAF.readahead_size_ (RAF.exec c o) = RAF.readahead_size_ o
  /\ AlignedBuffer.Capacity (RAF.buffer_ (RAF.exec c o))
     = AlignedBuffer.Capacity (RAF.buffer_ o).
Proof.
  destruct c as [offset n | offset n | offset len]; simpl.
  - rewrite Read_eq. destruct (_ <=? _); [simpl; auto |].
    destruct (fst (RAF.TryReadFromCache offset n o)) as [[hit len] scratch].
    destruct (hit && _); [auto |]. cbv zeta.
    destruct (ok _); cbn [snd]; apply ReadIntoBuffer_constants.
  - rewrite Prefetch_eq. destruct (n <? _); [auto |]. cbv zeta.
    destruct (_ =? _); [auto |]. apply ReadIntoBuffer_constants.
  - unfold RAF.InvalidateCache, bind, modify, RAF.set_buffer.
    destruct (fs_InvalidateCache _ _ _) as [s f']. simpl. auto.
Qed.

Lemma exec_all_constants (cs : list RAF.call) o :
  RAF.alignment_ (RAF.exec_all cs o) = RAF.alignment_ o
  /\ RAF.readahead_size_ (RAF.exec_all cs o) = RAF.readahead_size_ o
  /\ AlignedBuffer.Capacity (RAF.buffer_ (RAF.exec_all cs o))
     = AlignedBuffer.Capacity (RAF.buffer_ o).
Proof.
  revert o. induction cs as [| c cs IH]; intros o; simpl; [auto |].
  destruct (IH (RAF.exec c o)) as (-> & -> & ->). apply exec_constants.
Qed.

Lemma length_poke (data mem : list byte) :
  (length data <= length mem)%nat -> length (poke data mem) = length mem.
Proof.
  intros Hle. unfold poke. rewrite length_app, length_skipn. lia.
Qed.

Lemma buffer_memory_ReadIntoBuffer o offset n :
  reads_at_most ->
  0 <= AlignedBuffer.Capacity (RAF.buffer_ o) ->
  Z.of_nat (length (AlignedBuffer.BufferStart (RAF.buffer_ o)))
  = AlignedBuffer.Capacity (RAF.buffer_ o) ->
  length (AlignedBuffer.BufferStart
            (RAF.buffer_ (snd (RAF.ReadIntoBuffer offset n o))))
  = length (AlignedBuffer.BufferStart (RAF.buffer_ o)).
Proof.
  intros Hfile Hcap Hmem. rewrite ReadIntoBuffer_eq. cbv zeta. cbn [snd].
  set (n' := if _ <? n then _ else n).
  pose proof (Hfile (RAF.file_ o) offset n') as Hlen.
  assert (Hn' : n' <= AlignedBuffer.Capacity (RAF.buffer_ o)).
  { subst n'.
    destruct (Z.ltb_spec (AlignedBuffer.Capacity (RAF.buffer_ o)) n); lia. }
  destruct (ok _); simpl; apply length_poke;
    unfold AlignedBuffer.BufferStart in *; lia.
Qed.

Lemma call_fits_in_range o c :
  0 < RAF.alignment_ o -> RI.call_fits (RAF.alignment_ o) c ->
  RAF.call_in_range c.
Proof.
  intros Hal. destruct c; simpl; unfold in_range; intros; lia.
Qed.

Lemma buffer_sound_new (file : F) (readahead_size : Z) :
  0 < fs_GetRequiredBufferAlignment file ->
  RI.buffer_sound (RAF.new file readahead_size).
Proof.
  intros Hal. split; [now apply wf_new |].
  unfold RAF.new. simpl.
  repeat split; try now apply Roundup_multiple.
  rewrite repeat_length. apply Z2Nat.id.
  unfold Roundup. apply wrap_in_range.
Qed.

Lemma buffer_sound_exec o c :
  reads_at_most -> RI.buffer_sound o -> RAF.call_in_range c ->
  RI.buffer_sound (RAF.exec c o).
Proof.
  intros Hfile (Hwf & Hcm & Hrm & Hmem) Hc.
  destruct (exec_constants o c) as (Hal' & Hra' & Hcap').
  split; [now apply wf_exec |].
  rewrite Hal', Hra', Hcap'. repeat split; try assumption.
  rewrite <- Hmem. f_equal.
  assert (Hcap : 0 <= AlignedBuffer.Capacity (RAF.buffer_ o))
    by (destruct Hwf as (_ & _ & _ & ? & _); lia).
  destruct c as [offset n | offset n | offset len]; simpl.
  - rewrite Read_eq. destruct (_ <=? _); [reflexivity |].
    destruct (fst (RAF.TryReadFromCache offset n o)) as [[hit len] scratch].
    destruct (hit && _); [reflexivity |]. cbv zeta.
    destruct (ok _); cbn [snd]; now apply buffer_memory_ReadIntoBuffer.
  - rewrite Prefetch_eq. destruct (n <? _); [reflexivity |]. cbv zeta.
    destruct (_ =? _); [reflexivity |].
    now apply buffer_memory_ReadIntoBuffer.
  - unfold RAF.InvalidateCache, bind, modify, RAF.set_buffer.
    destruct (fs_InvalidateCache _ _ _) as [s f']. reflexivity.
Qed.

Lemma buffer_sound_exec_all (cs : list RAF.call) o :
  reads_at_most -> RI.buffer_sound o -> Forall RAF.call_in_range cs ->
  RI.buffer_sound (RAF.exec_all cs o).
Proof.
  intros Hfile. revert o.
  induction cs as [| c cs IH]; intros o Hs Hcs; simpl; [exact Hs |].
  inversion Hcs; subst. apply IH; [apply buffer_sound_exec |]; assumption.
Qed.

(** ** The buffer invariant *)

(** X1.  Every state the wrapper reaches from its construction is sound:
    the cached offset fits [uint64_t] and is a multiple of the alignment,
    [0 <= CurrentSize() <= Capacity() <= readahead_size_], the capacity and
    the read-ahead size are multiples of the alignment, and the buffer
    memory has [Capacity()] bytes. *)
Theorem reachable_states_are_sound
        (file : F) (readahead_size : Z) (cs : list RAF.call) :
  reads_at_most ->
  0 < fs_GetRequiredBufferAlignment file ->
  Forall RAF.call_in_range cs ->
  RI.buffer_sound (RAF.exec_all cs (RAF.new file readahead_size)).
Proof.
  intros Hfile Hal Hcs.
  apply buffer_sound_exec_all; auto using buffer_sound_new.
Qed.

(** The lookup, whatever the state: the reported length is between 0 and
    [n], at most that many bytes are copied, and a miss reports 0. *)
Lemma TryReadFromCache_bounds o offset n :
  0 <= n ->
  let r := fst (RAF.TryReadFromCache offset n o) in
  0 <= snd (fst r) <= n
  /\ Z.of_nat (length (snd r)) <= snd (fst r)
  /\ (fst (fst r) = false -> snd (fst r) = 0 /\ snd r = []).
Proof.
  intros Hn. cbv zeta.
  unfold RAF.TryReadFromCache, bind, gets, ret.
  destruct (_ || _); cbn [fst snd].
  - repeat split; simpl; lia.
  - set (avail := wrap _).
    pose proof (wrap_in_range
                  (AlignedBuffer.CurrentSize (RAF.buffer_ o)
                   - wrap (offset - RAF.buffer_offset_ o))) as Hw.
    fold avail in Hw. unfold in_range in Hw.
    pose proof (memcpy_from_length_le
                  (AlignedBuffer.BufferStart (RAF.buffer_ o))
                  (wrap (offset - RAF.buffer_offset_ o))
                  (Z.min avail n)).
    split; [lia |]. split; [lia | discriminate].
Qed.

(** X2.  In a sound state a hit copies exactly the reported number of
    bytes, all of them from the populated part of the buffer: the range
    [offset, offset + cached_len) lies within the cached range, which lies
    within the buffer memory. *)
Theorem TryReadFromCache_copies_within_buffer o offset n :
  let r := fst (RAF.TryReadFromCache offset n o) in
  let cached_len := snd (fst r) in
  RI.buffer_sound o -> 0 <= n ->
  fst (fst r) = true ->
  Z.of_nat (length (snd r)) = cached_len
  /\ RAF.buffer_offset_ o <= offset
  /\ offset + cached_len <= RAF.buffer_offset_ o + RAF.CurrentSize o
  /\ RAF.CurrentSize o
     <= Z.of_nat (length (AlignedBuffer.BufferStart (RAF.buffer_ o))).
Proof.
  intros r cached_len ((Hal & Hbo & Hm & Hcur & Hcap & Hra) & _ & _ & Hmem)
         Hn Hhit.
  subst cached_len r.
  destruct (fst (RAF.TryReadFromCache offset n o))
    as [[hit len] scratch] eqn:E.
  cbn [fst snd] in *. subst hit.
  pose proof E as Epos.
  apply TryReadFromCache_hit in Epos; [| assumption | lia].
  destruct Epos as (Hpos & Hend & Hlen).
  unfold in_range in Hbo.
  rewrite TryReadFromCache_inside in E by (unfold in_range; lia).
  cbn [fst] in E. inversion E as [[Hl Hs]]. clear E.
  rewrite memcpy_from_length by lia.
  unfold RAF.CurrentSize in *. lia.
Qed.

(** X3.  [Read] never hands back more than [n] bytes, and it leaves
    [*result] unassigned only when it returns a status that is not OK. *)
Theorem Read_returns_at_most_n_bytes o offset n :
  reads_at_most -> 0 <= n ->
  match snd (fst (RAF.Read offset n o)) with
  | Some result => Z.of_nat (length result) <= n
  | None => ok (fst (fst (RAF.Read offset n o))) = false
  end.
Proof.
  intros Hfile Hn. rewrite Read_eq.
  destruct (_ <=? _).
  - cbn [fst snd]. pose proof (Hfile (RAF.file_ o) offset n). lia.
  - pose proof (TryReadFromCache_bounds o offset n Hn) as (Hlen & Hcopy & _).
    destruct (fst (RAF.TryReadFromCache offset n o))
      as [[hit len] scratch].
    cbn [fst snd] in *.
    destruct (hit && _); [cbn [fst snd]; lia |]. cbv zeta.
    destruct (ok _) eqn:Eok; cbn [fst snd]; [| exact Eok].
    match goal with
    | |- context [RAF.TryReadFromCache ?a ?b ?st] =>
        pose proof (TryReadFromCache_bounds st a b ltac:(lia))
          as (Hlen' & Hcopy' & _)
    end.
    rewrite length_app. lia.
Qed.

(** X4.  A call issues at most one read of the underlying file, and never
    removes an entry from the log of issued reads; [InvalidateCache]
    issues none. *)
Theorem calls_issue_at_most_one_read o c :
  (RI.reads_issued o (RAF.exec c o) []
   \/ exists r, RI.reads_issued o (RAF.exec c o) [r])
  /\ match c with
     | RAF.CallInvalidateCache _ _ => RI.reads_issued o (RAF.exec c o) []
     | _ => True
     end.
Proof.
  unfold RI.reads_issued.
  destruct c as [offset n | offset n | offset len]; simpl.
  - split; [| exact I]. rewrite Read_eq.
    destruct (_ <=? _); [right; eexists; reflexivity |].
    destruct (fst (RAF.TryReadFromCache offset n o)) as [[hit len] scratch].
    destruct (hit && _); [left; reflexivity |]. cbv zeta.
    assert (Hlog : forall a b,
               exists r, RAF.io_log_ (snd (RAF.ReadIntoBuffer a b o))
                         = [r] ++ RAF.io_log_ o).
    { intros a b. rewrite ReadIntoBuffer_eq. cbv zeta. cbn [snd].
      destruct (ok _); eexists; reflexivity. }
    right. destruct (ok _); cbn [snd]; apply Hlog.
  - split; [| exact I]. rewrite Prefetch_eq.
    destruct (n <? _); [left; reflexivity |]. cbv zeta.
    destruct (_ =? _); [left; reflexivity |].
    right. rewrite ReadIntoBuffer_eq. cbv zeta. cbn [snd].
    destruct (ok _); eexists; reflexivity.
  - unfold RAF.InvalidateCache, bind, modify, RAF.set_buffer.
    destruct (fs_InvalidateCache _ _ _) as [s f']. simpl. auto.
Qed.

(** ** The reads the buffer is filled with *)

(** In a sound state the fetch of [Read] asks for the whole capacity. *)
Lemma fetch_size_of_Read o :
  RI.buffer_sound o ->
  (if AlignedBuffer.Capacity (RAF.buffer_ o) <? RAF.readahead_size_ o
   then AlignedBuffer.Capacity (RAF.buffer_ o) else RAF.readahead_size_ o)
  = AlignedBuffer.Capacity (RAF.buffer_ o).
Proof.
  intros ((_ & _ & _ & _ & Hcap & _) & _).
  destruct (Z.ltb_spec (AlignedBuffer.Capacity (RAF.buffer_ o))
                       (RAF.readahead_size_ o)); lia.
Qed.

(** So does the fetch of [Prefetch], when the end of the range, rounded
    up, fits [size_t]. *)
Lemma fetch_size_of_Prefetch o offset n :
  RI.buffer_sound o -> in_range offset ->
  RAF.readahead_size_ o <= n ->
  offset + n + RAF.alignment_ o < UINT64_MODULUS ->
  let len := wrap (Roundup (wrap (offset + n)) (RAF.alignment_ o)
                   - TruncateToPageBoundary (RAF.alignment_ o) offset) in
  (if AlignedBuffer.Capacity (RAF.buffer_ o) <? len
   then AlignedBuffer.Capacity (RAF.buffer_ o) else len)
  = AlignedBuffer.Capacity (RAF.buffer_ o).
Proof.
  intros ((Hal & _ & _ & Hcur & Hcap & _) & _) Hoff Hn Hfit len.
  unfold in_range in Hoff.
  pose proof (TruncateToPageBoundary_range (RAF.alignment_ o) offset Hal Hoff)
    as Hp.
  assert (Hple : TruncateToPageBoundary (RAF.alignment_ o) offset <= offset).
  { unfold TruncateToPageBoundary.
    pose proof (Z.mod_pos_bound offset (RAF.alignment_ o) Hal). lia. }
  assert (Hr : offset + n
               <= Roundup (wrap (offset + n)) (RAF.alignment_ o)
               < offset + n + RAF.alignment_ o).
  { rewrite wrap_small by (unfold in_range; lia).
    apply Roundup_bounds; lia. }
  unfold in_range in Hp.
  assert (Hlen : len = Roundup (wrap (offset + n)) (RAF.alignment_ o)
                       - TruncateToPageBoundary (RAF.alignment_ o) offset).
  { subst len. apply wrap_small. unfold in_range. lia. }
  destruct (Z.ltb_spec (AlignedBuffer.Capacity (RAF.buffer_ o)) len); lia.
Qed.

(** X5.  In a sound state, for a request whose end, rounded up, fits
    [size_t]: a read that [Prefetch] issues, and a read that [Read] issues
    on its cache path, is a read of exactly [Capacity()] bytes at a
    multiple of the alignment; [Capacity()] is a multiple of the alignment
    too.  The read of [Prefetch] starts at the offset rounded down, the
    read of [Read] at an offset that is not beyond the requested range. *)
Theorem fetches_are_aligned_and_capacity_sized o offset n :
  let al := RAF.alignment_ o in
  let cap := AlignedBuffer.Capacity (RAF.buffer_ o) in
  RI.buffer_sound o -> in_range offset -> 0 <= n ->
  offset + n + al < UINT64_MODULUS ->
  cap mod al = 0
  /\ (RAF.io_log_ (snd (RAF.Prefetch offset n o)) = RAF.io_log_ o
      \/ (RAF.io_log_ (snd (RAF.Prefetch offset n o))
          = (TruncateToPageBoundary al offset, cap) :: RAF.io_log_ o
          /\ TruncateToPageBoundary al offset mod al = 0))
  /\ (n + al < RAF.readahead_size_ o ->
      RAF.io_log_ (snd (RAF.Read offset n o)) = RAF.io_log_ o
      \/ exists chunk,
          RAF.io_log_ (snd (RAF.Read offset n o))
          = (chunk, cap) :: RAF.io_log_ o
          /\ chunk mod al = 0 /\ 0 <= chunk <= offset + n).
Proof.
  intros al cap Hsound Hoff Hn Hfit.
  pose proof Hsound as ((Hal & Hbo & Hm & Hcur & Hcap & Hra) & Hcm & _ & _).
  fold al in Hal. unfold in_range in Hoff.
  split; [exact Hcm |]. split.
  - rewrite Prefetch_eq.
    destruct (Z.ltb_spec n (RAF.readahead_size_ o)); [left; reflexivity |].
    cbv zeta. destruct (_ =? _); [left; reflexivity |].
    right. rewrite ReadIntoBuffer_eq. cbv zeta. cbn [snd].
    rewrite (fetch_size_of_Prefetch o offset n) by assumption.
    split; [now destruct (ok _) |].
    now apply TruncateToPageBoundary_aligned.
  - intros Hsmall. rewrite Read_eq.
    rewrite (wrap_small (n + _)) by (unfold in_range; fold al; lia).
    replace (_ <=? _) with false by (symmetry; fold al; lia).
    pose proof (TryReadFromCache_bounds o offset n Hn) as (Hlen & _).
    destruct (fst (RAF.TryReadFromCache offset n o)) as [[hit len] scratch].
    cbn [fst snd] in Hlen.
    destruct (hit && _); [left; reflexivity |]. cbv zeta.
    right. exists (TruncateToPageBoundary al (wrap (offset + len))).
    assert (Hadv : in_range (offset + len)) by (unfold in_range; lia).
    rewrite (wrap_small _ Hadv).
    pose proof (TruncateToPageBoundary_range al _ Hal Hadv) as Hp.
    assert (Hple : TruncateToPageBoundary al (offset + len) <= offset + len).
    { unfold TruncateToPageBoundary.
      pose proof (Z.mod_pos_bound (offset + len) al Hal). lia. }
    unfold in_range in Hp.
    split; [| split; [now apply TruncateToPageBoundary_aligned | lia]].
    assert (Hlog : RAF.io_log_
                     (snd (RAF.ReadIntoBuffer
                             (TruncateToPageBoundary al (offset + len))
                             (RAF.readahead_size_ o) o))
                   = (TruncateToPageBoundary al (offset + len), cap)
                       :: RAF.io_log_ o).
    { rewrite ReadIntoBuffer_eq. cbv zeta. cbn [snd].
      rewrite (fetch_size_of_Read o Hsound). now destruct (ok _). }
    fold al. destruct (ok _); cbn [snd]; exact Hlog.
Qed.

(** ** Invalidation *)

Lemma TryReadFromCache_empty o offset n :
  in_range (RAF.buffer_offset_ o) -> RAF.CurrentSize o = 0 ->
  RAF.TryReadFromCache offset n o = ((false, 0, []), o).
Proof.
  intros Hbo Hcur. unfold RAF.CurrentSize in Hcur.
  unfold RAF.TryReadFromCache, bind, gets, ret.
  rewrite Hcur, Z.add_0_r, (wrap_small _ Hbo).
  destruct (Z.ltb_spec offset (RAF.buffer_offset_ o)); [reflexivity |].
  destruct (Z.leb_spec (RAF.buffer_offset_ o) offset); [reflexivity | lia].
Qed.

(** X6.  [InvalidateCache] returns the status of the file's
    [InvalidateCache] and empties the buffer without reading: afterwards
    the current size is 0, every lookup misses, and a [Read] on the cache
    path fetches from the file, at the requested offset rounded down. *)
Theorem InvalidateCache_empties_the_cache o offset length offset' n' :
  let o' := snd (RAF.InvalidateCache offset length o) in
  RI.buffer_sound o ->
  fst (RAF.InvalidateCache offset length o)
  = fst (fs_InvalidateCache (RAF.file_ o) offset length)
  /\ RAF.CurrentSize o' = 0
  /\ RAF.io_log_ o' = RAF.io_log_ o
  /\ RAF.TryReadFromCache offset' n' o' = ((false, 0, []), o')
  /\ (in_range offset' -> in_range (n' + RAF.alignment_ o) ->
      n' + RAF.alignment_ o < RAF.readahead_size_ o ->
      RAF.io_log_ (snd (RAF.Read offset' n' o'))
      = (TruncateToPageBoundary (RAF.alignment_ o) offset',
         AlignedBuffer.Capacity (RAF.buffer_ o)) :: RAF.io_log_ o).
Proof.
  intros o' Hsound.
  pose proof Hsound as ((Hal & Hbo & Hm & Hcur & Hcap & Hra) & _).
  assert (Ho' : RAF.buffer_offset_ o' = RAF.buffer_offset_ o
                /\ RAF.CurrentSize o' = 0
                /\ RAF.io_log_ o' = RAF.io_log_ o
                /\ RAF.alignment_ o' = RAF.alignment_ o
                /\ RAF.readahead_size_ o' = RAF.readahead_size_ o
                /\ AlignedBuffer.Capacity (RAF.buffer_ o')
                   = AlignedBuffer.Capacity (RAF.buffer_ o)
                /\ fst (RAF.InvalidateCache offset length o)
                   = fst (fs_InvalidateCache (RAF.file_ o) offset length)).
  { subst o'. unfold RAF.InvalidateCache, bind, modify, RAF.set_buffer,
      RAF.CurrentSize.
    destruct (fs_InvalidateCache _ _ _) as [s f']. simpl. auto 10. }
  destruct Ho' as (Hbo' & Hcur' & Hlog' & Hal' & Hra' & Hcap' & Hst).
  assert (Hmiss : forall a b, RAF.TryReadFromCache a b o' = ((false, 0, []), o')).
  { intros a b. apply TryReadFromCache_empty; [now rewrite Hbo' | exact Hcur']. }
  split; [exact Hst |]. split; [exact Hcur' |]. split; [exact Hlog' |].
  split; [apply Hmiss |].
  intros Hoff Hfit Hsmall. rewrite Read_eq.
  rewrite Hal', Hra', (wrap_small _ Hfit).
  replace (_ <=? _) with false by (symmetry; lia).
  rewrite Hmiss. cbn [fst andb]. cbv zeta.
  rewrite Z.add_0_r, (wrap_small _ Hoff).
  assert (Hlog : RAF.io_log_
                   (snd (RAF.ReadIntoBuffer
                           (TruncateToPageBoundary (RAF.alignment_ o) offset')
                           (RAF.readahead_size_ o) o'))
                 = (TruncateToPageBoundary (RAF.alignment_ o) offset',
                    AlignedBuffer.Capacity (RAF.buffer_ o))
                     :: RAF.io_log_ o).
  { rewrite ReadIntoBuffer_eq. cbv zeta. cbn [snd].
    rewrite Hcap', Hlog'.
    replace (if _ <? _ then _ else _)
      with (AlignedBuffer.Capacity (RAF.buffer_ o))
      by (destruct (Z.ltb_spec (AlignedBuffer.Capacity (RAF.buffer_ o))
                               (RAF.readahead_size_ o)); lia).
    now destruct (ok _). }
  destruct (ok _); cbn [snd]; exact Hlog.
Qed.

(** X7.  [Prefetch] compares only the rounded-down offset with the cached
    offset, not the contents of the buffer.  So after a prefetch that
    succeeded and an [InvalidateCache], the same prefetch again returns OK
    without reading, and the buffer stays empty. *)
Theorem Prefetch_after_InvalidateCache_does_not_refill
        o offset n offset' length' :
  let o1 := snd (RAF.Prefetch offset n o) in
  let o2 := snd (RAF.InvalidateCache offset' length' o1) in
  ok (fst (RAF.Prefetch offset n o)) = true ->
  RAF.Prefetch offset n o2 = (IOStatus_OK, o2)
  /\ RAF.CurrentSize o2 = 0.
Proof.
  intros o1 o2 Hok.
  assert (Ho2 : RAF.buffer_offset_ o2 = RAF.buffer_offset_ o1
                /\ RAF.alignment_ o2 = RAF.alignment_ o1
                /\ RAF.readahead_size_ o2 = RAF.readahead_size_ o1
                /\ RAF.CurrentSize o2 = 0).
  { subst o2. unfold RAF.InvalidateCache, bind, modify, RAF.set_buffer,
      RAF.CurrentSize.
    destruct (fs_InvalidateCache _ _ _) as [s f']. simpl. auto. }
  destruct Ho2 as (Hbo & Hal & Hra & Hcur).
  split; [| exact Hcur].
  rewrite Prefetch_eq, Hbo, Hal, Hra.
  subst o1. revert Hok. rewrite (Prefetch_eq o).
  destruct (n <? RAF.readahead_size_ o) eqn:En.
  - intros _. cbn [snd]. now rewrite En.
  - cbv zeta. destruct (_ =? RAF.buffer_offset_ o) eqn:Eo.
    + intros _. cbn [snd]. rewrite En. cbv zeta. now rewrite Eo.
    + rewrite ReadIntoBuffer_eq. cbv zeta. cbn [fst snd]. intros Hok.
      rewrite Hok. simpl. rewrite En. now rewrite Z.eqb_refl.
Qed.

(** X8.  The cached offset of a new wrapper is 0 with an empty buffer, so
    a prefetch that starts in the first page of the file is dropped: it
    returns OK, reads nothing and leaves the buffer empty. *)
Theorem Prefetch_in_first_page_of_new_wrapper_is_dropped
        (file : F) (readahead_size : Z) offset n :
  let o := RAF.new file readahead_size in
  0 <= offset < fs_GetRequiredBufferAlignment file ->
  RAF.Prefetch offset n o = (IOStatus_OK, o)
  /\ RAF.CurrentSize o = 0
  /\ RAF.io_log_ o = [].
Proof.
  intros o Hoff. split; [| split; reflexivity].
  rewrite Prefetch_eq.
  destruct (n <? _); [reflexivity |]. cbv zeta.
  unfold TruncateToPageBoundary. simpl.
  rewrite Z.mod_small by lia. now rewrite Z.sub_diag.
Qed.

(** ** Reads through the wrapper return the bytes of the file *)

(** The predicates look at the file, the buffer, the cached offset and the
    two sizes only. *)
Lemma buffer_sound_same o o' :
  RAF.alignment_ o' = RAF.alignment_ o ->
  RAF.readahead_size_ o' = RAF.readahead_size_ o ->
  RAF.buffer_ o' = RAF.buffer_ o ->
  RAF.buffer_offset_ o' = RAF.buffer_offset_ o ->
  RI.buffer_sound o -> RI.buffer_sound o'.
Proof.
  unfold RI.buffer_sound, RAF.wf, RAF.CurrentSize.
  intros -> -> -> ->. exact (fun x => x).
Qed.

Lemma holds_file_bytes_same (contents : list byte) o o' :
  RAF.file_ o' = RAF.file_ o ->
  RAF.readahead_size_ o' = RAF.readahead_size_ o ->
  RAF.buffer_ o' = RAF.buffer_ o ->
  RAF.buffer_offset_ o' = RAF.buffer_offset_ o ->
  RI.holds_file_bytes contents o -> RI.holds_file_bytes contents o'.
Proof.
  unfold RI.holds_file_bytes, RAF.CurrentSize.
  intros -> -> -> ->. exact (fun x => x).
Qed.

Lemma buffer_sound_ReadIntoBuffer o offset n :
  reads_at_most -> RI.buffer_sound o -> in_range offset ->
  offset mod RAF.alignment_ o = 0 ->
  RI.buffer_sound (snd (RAF.ReadIntoBuffer offset n o)).
Proof.
  intros Hfile (Hwf & Hcm & Hrm & Hmem) Hoff Hom.
  destruct (ReadIntoBuffer_constants o offset n) as (Hal' & Hra' & Hcap').
  split; [now apply wf_ReadIntoBuffer |].
  rewrite Hal', Hra', Hcap'. repeat split; try assumption.
  rewrite <- Hmem. f_equal. apply buffer_memory_ReadIntoBuffer; try assumption.
  destruct Hwf as (_ & _ & _ & ? & _). lia.
Qed.

(** The bytes of the buffer are bytes of the file. *)
Lemma buffer_bytes (contents : list byte) o (k len : Z) :
  RI.holds_file_bytes contents o -> 0 <= RAF.buffer_offset_ o ->
  0 <= k -> 0 <= len -> k + len <= RAF.CurrentSize o ->
  memcpy_from (AlignedBuffer.BufferStart (RAF.buffer_ o)) k len
  = memcpy_from contents (RAF.buffer_offset_ o + k) len.
Proof.
  intros (_ & _ & Hbytes & _) Hbo Hk Hlen Hfit. cbv zeta in Hbytes.
  rewrite <- (memcpy_from_memcpy_from contents (RAF.buffer_offset_ o)
                                      (RAF.CurrentSize o) k len) by lia.
  rewrite <- Hbytes.
  now rewrite memcpy_from_memcpy_from by lia.
Qed.

(** A fetch of the whole capacity from a stable file leaves a buffer that
    holds all the file has in its window. *)
Lemma ReadIntoBuffer_fresh (contents : list byte) o chunk n :
  reads_at_most ->
  RI.stable_file contents (RAF.file_ o) ->
  RI.buffer_sound o ->
  AlignedBuffer.Capacity (RAF.buffer_ o) = RAF.readahead_size_ o ->
  (if AlignedBuffer.Capacity (RAF.buffer_ o) <? n
   then AlignedBuffer.Capacity (RAF.buffer_ o) else n)
  = AlignedBuffer.Capacity (RAF.buffer_ o) ->
  in_range chunk -> chunk mod RAF.alignment_ o = 0 ->
  let o1 := snd (RAF.ReadIntoBuffer chunk n o) in
  fst (RAF.ReadIntoBuffer chunk n o) = IOStatus_OK
  /\ RI.buffer_sound o1
  /\ RI.holds_file_bytes contents o1
  /\ RAF.buffer_offset_ o1 = chunk
  /\ RAF.CurrentSize o1
     = Z.min (RAF.readahead_size_ o)
             (Z.max 0 (Z.of_nat (length contents) - chunk))
  /\ RAF.alignment_ o1 = RAF.alignment_ o
  /\ RAF.readahead_size_ o1 = RAF.readahead_size_ o.
Proof.
  intros Hfile Hst Hsound Hfull Hclip Hchunk Hal o1.
  pose proof (buffer_sound_ReadIntoBuffer o chunk n Hfile Hsound Hchunk Hal)
    as Hsound1.
  destruct (ReadIntoBuffer_constants o chunk n) as (Hal1 & Hra1 & Hcap1).
  fold o1 in Hsound1, Hal1, Hra1, Hcap1.
  pose proof Hsound as ((_ & _ & _ & Hcur & _ & _) & _).
  unfold in_range in Hchunk.
  assert (Hra : 0 <= RAF.readahead_size_ o) by lia.
  set (data := memcpy_from contents chunk (RAF.readahead_size_ o)).
  assert (Hshape : fst (RAF.ReadIntoBuffer chunk n o) = IOStatus_OK
                   /\ RAF.file_ o1 = RAF.file_ o
                   /\ RAF.buffer_offset_ o1 = chunk
                   /\ RAF.CurrentSize o1 = Z.of_nat (length data)
                   /\ AlignedBuffer.BufferStart (RAF.buffer_ o1)
                      = poke data (AlignedBuffer.BufferStart (RAF.buffer_ o))).
  { subst o1. rewrite ReadIntoBuffer_eq. cbv zeta. rewrite Hclip, Hfull.
    destruct Hst as [Hread _].
    rewrite (Hread chunk (RAF.readahead_size_ o)).
    cbn [fst snd]. unfold RAF.CurrentSize. simpl. auto. }
  destruct Hshape as (Hs & Hf1 & Hbo1 & Hcur1 & Hmem1).
  assert (Hlen : Z.of_nat (length data)
                 = Z.min (RAF.readahead_size_ o)
                         (Z.max 0 (Z.of_nat (length contents) - chunk)))
    by (subst data; apply memcpy_from_length; lia).
  split; [exact Hs |]. split; [exact Hsound1 |].
  split; [| split; [exact Hbo1 |]; split; [lia |]; split; assumption].
  unfold RI.holds_file_bytes. cbv zeta.
  split; [now rewrite Hf1 |]. split; [congruence |]. split.
  - rewrite Hmem1, Hbo1, Hcur1.
    rewrite memcpy_from_poke by lia.
    unfold memcpy_from at 1. simpl skipn. rewrite Nat2Z.id, firstn_all.
    destruct (Z_lt_ge_dec (Z.of_nat (length data)) (RAF.readahead_size_ o)).
    + subst data.
      rewrite (memcpy_from_past_end contents chunk
                 (Z.of_nat (length (memcpy_from contents chunk
                                      (RAF.readahead_size_ o))))
                 (RAF.readahead_size_ o)) at 1 by lia.
      reflexivity.
    + replace (Z.of_nat (length data)) with (RAF.readahead_size_ o) by lia.
      reflexivity.
  - rewrite Hbo1, Hcur1, Hra1. lia.
Qed.

(** A lookup that starts outside the cached range misses. *)
Lemma TryReadFromCache_outside o offset n :
  in_range (RAF.buffer_offset_ o) -> 0 <= RAF.CurrentSize o ->
  RAF.buffer_offset_ o + RAF.CurrentSize o < UINT64_MODULUS ->
  offset < RAF.buffer_offset_ o
  \/ RAF.buffer_offset_ o + RAF.CurrentSize o <= offset ->
  RAF.TryReadFromCache offset n o = ((false, 0, []), o).
Proof.
  intros Hbo Hcur Hend Hout. unfold in_range in Hbo.
  unfold RAF.TryReadFromCache, bind, gets, ret. unfold RAF.CurrentSize in *.
  rewrite (wrap_small (_ + _)) by (unfold in_range; lia).
  destruct (Z.ltb_spec offset (RAF.buffer_offset_ o)); [reflexivity |].
  destruct (Z.leb_spec (RAF.buffer_offset_ o
                        + AlignedBuffer.CurrentSize (RAF.buffer_ o)) offset);
    [reflexivity | lia].
Qed.

(** A lookup in the window of a buffer that was just fetched returns the
    bytes of the file, hit or miss. *)
Lemma lookup_in_window (contents : list byte) o offset m :
  RI.buffer_sound o -> RI.holds_file_bytes contents o ->
  Z.of_nat (length contents) < UINT64_MODULUS ->
  RAF.CurrentSize o
  = Z.min (RAF.readahead_size_ o)
          (Z.max 0 (Z.of_nat (length contents) - RAF.buffer_offset_ o)) ->
  RAF.buffer_offset_ o <= offset -> 0 <= m ->
  offset + m <= RAF.buffer_offset_ o + RAF.readahead_size_ o ->
  snd (fst (RAF.TryReadFromCache offset m o)) = memcpy_from contents offset m.
Proof.
  intros ((Hal & Hbo & Hm & Hcur & Hcap & Hra) & _) Hholds HL Hfresh
         Hoff Hlen Hwin.
  unfold in_range in Hbo.
  destruct (Z_lt_ge_dec offset (RAF.buffer_offset_ o + RAF.CurrentSize o))
    as [Hin | Hout].
  - rewrite TryReadFromCache_inside by (unfold in_range; lia).
    cbn [fst snd].
    rewrite (buffer_bytes contents) by (try assumption; lia).
    replace (RAF.buffer_offset_ o + (offset - RAF.buffer_offset_ o))
      with offset by lia.
    destruct (Z_le_gt_dec (offset + m)
                          (RAF.buffer_offset_ o + RAF.CurrentSize o)).
    + now rewrite Z.min_r by lia.
    + rewrite Z.min_l by lia. symmetry.
      apply memcpy_from_past_end; lia.
  - rewrite TryReadFromCache_outside by (unfold in_range; lia).
    cbn [fst snd]. symmetry.
    destruct (Z.eq_dec m 0) as [-> | Hpos]; [reflexivity |].
    rewrite (memcpy_from_past_end contents offset 0 m) by lia.
    reflexivity.
Qed.

(** One [Read] on a buffer that agrees with the file. *)
Lemma Read_on_stable_file (contents : list byte) o offset n :
  reads_at_most ->
  Z.of_nat (length contents) < UINT64_MODULUS ->
  RI.buffer_sound o -> RI.holds_file_bytes contents o ->
  in_range offset -> 0 <= n ->
  offset + n + RAF.alignment_ o < UINT64_MODULUS ->
  fst (RAF.Read offset n o)
  = (IOStatus_OK, Some (memcpy_from contents offset n))
  /\ RI.buffer_sound (snd (RAF.Read offset n o))
  /\ RI.holds_file_bytes contents (snd (RAF.Read offset n o)).
Proof.
  intros Hfile HL Hsound Hholds Hoff Hn Hfit.
  pose proof Hsound as ((Hal & Hbo & Hm & Hcur & Hcap & Hra) & Hcm & Hrm & _).
  pose proof Hholds as (Hst & Hfull & _ & Hwin).
  cbv zeta in Hwin. unfold in_range in Hoff, Hbo.
  rewrite Read_eq.
  rewrite (wrap_small (n + _)) by (unfold in_range; lia).
  destruct (Z.leb_spec (RAF.readahead_size_ o) (n + RAF.alignment_ o))
    as [Hbig | Hsmall].
  - (* forwarded *)
    cbv zeta. cbn [fst snd].
    destruct Hst as [Hread _].
    rewrite (Hread offset n). cbn [fst snd].
    split; [reflexivity |].
    split; [eapply buffer_sound_same | eapply holds_file_bytes_same];
      try eassumption; reflexivity.
  - assert (Hend : RAF.buffer_offset_ o + RAF.CurrentSize o < UINT64_MODULUS)
      by lia.
    (* what a fetch at an aligned [chunk] in range gives *)
    assert (Hfetch : forall chunk,
               in_range chunk -> chunk mod RAF.alignment_ o = 0 ->
               let o1 := snd (RAF.ReadIntoBuffer chunk (RAF.readahead_size_ o) o)
               in
               ok (fst (RAF.ReadIntoBuffer chunk (RAF.readahead_size_ o) o))
               = true
               /\ fst (RAF.ReadIntoBuffer chunk (RAF.readahead_size_ o) o)
                  = IOStatus_OK
               /\ RI.buffer_sound o1 /\ RI.holds_file_bytes contents o1
               /\ forall offset' m,
                   chunk <= offset' -> 0 <= m ->
                   offset' + m <= chunk + RAF.readahead_size_ o ->
                   snd (fst (RAF.TryReadFromCache offset' m o1))
                   = memcpy_from contents offset' m).
    { intros chunk Hchunk Hcal o1.
      destruct (ReadIntoBuffer_fresh contents o chunk (RAF.readahead_size_ o))
        as (Hs & Hs1 & Hh1 & Hbo1 & Hcur1 & Hal1 & Hra1); try assumption.
      { rewrite Hfull.
        destruct (Z.ltb_spec (RAF.readahead_size_ o) (RAF.readahead_size_ o));
          lia. }
      fold o1 in Hs1, Hh1, Hbo1, Hcur1, Hal1, Hra1.
      split; [now rewrite Hs |]. split; [exact Hs |].
      split; [exact Hs1 |]. split; [exact Hh1 |].
      intros offset' m Ho' Hm' Hw.
      apply lookup_in_window; try assumption; rewrite ?Hbo1, ?Hra1;
        try assumption. }
    assert (Hcase : RAF.buffer_offset_ o <= offset
                    < RAF.buffer_offset_ o + RAF.CurrentSize o
                    \/ (offset < RAF.buffer_offset_ o
                        \/ RAF.buffer_offset_ o + RAF.CurrentSize o <= offset))
      by lia.
    destruct Hcase as [Hin | Hout].
    + (* hit *)
      rewrite TryReadFromCache_inside by (unfold in_range; lia).
      cbn [fst]. cbv zeta.
      set (cl := Z.min (RAF.buffer_offset_ o + RAF.CurrentSize o - offset) n).
      assert (Hbytes :
                memcpy_from (AlignedBuffer.BufferStart (RAF.buffer_ o))
                            (offset - RAF.buffer_offset_ o) cl
                = memcpy_from contents offset cl).
      { rewrite (buffer_bytes contents) by (try assumption; lia).
        f_equal. lia. }
      rewrite Hbytes.
      destruct (Z_le_gt_dec (offset + n)
                            (RAF.buffer_offset_ o + RAF.CurrentSize o))
        as [Hall | Hpart].
      * (* all [n] bytes *)
        replace cl with n by lia. rewrite Z.eqb_refl. cbn [andb orb fst snd].
        auto.
      * assert (Hcl : cl = RAF.buffer_offset_ o + RAF.CurrentSize o - offset)
          by lia.
        replace (cl =? n) with false by (symmetry; lia). cbn [orb andb].
        destruct (Z.ltb_spec (RAF.CurrentSize o) (RAF.readahead_size_ o))
          as [Hshort | Hfullbuf].
        -- (* the end of the file was reached *)
           cbn [fst snd].
           split; [| auto].
           f_equal. f_equal. symmetry.
           apply memcpy_from_past_end; lia.
        -- (* the buffer is full: fetch the next window *)
           assert (Hcurra : RAF.CurrentSize o = RAF.readahead_size_ o) by lia.
           assert (Hadv : offset + cl
                          = RAF.buffer_offset_ o + RAF.readahead_size_ o)
             by lia.
           rewrite (wrap_small (offset + cl)) by (unfold in_range; lia).
           assert (Hnext : (offset + cl) mod RAF.alignment_ o = 0).
           { rewrite Hadv, Z.add_mod, Hm, Hrm by lia.
             rewrite Z.add_0_l. now apply Z.mod_0_l, Z.neq_sym, Z.lt_neq. }
           rewrite (TruncateToPageBoundary_fix _ _ Hnext).
           destruct (Hfetch (offset + cl) ltac:(unfold in_range; lia) Hnext)
             as (Hok & Hs & Hs1 & Hh1 & Hlook).
           rewrite Hok. cbn [fst snd]. rewrite Hs.
           rewrite Hlook by lia.
           rewrite <- memcpy_from_split by lia.
           auto.
    + (* miss: fetch at the offset rounded down, then look again *)
      rewrite (TryReadFromCache_outside o offset n)
        by (unfold in_range; lia).
      cbn [fst andb]. cbv zeta.
      rewrite Z.add_0_r, (wrap_small offset) by (unfold in_range; lia).
      rewrite Z.sub_0_r.
      pose proof (TruncateToPageBoundary_range (RAF.alignment_ o) offset Hal
                    ltac:(unfold in_range; lia)) as Hp.
      pose proof (TruncateToPageBoundary_aligned (RAF.alignment_ o) offset Hal)
        as Hpa.
      assert (Hpbound : offset - RAF.alignment_ o
                        < TruncateToPageBoundary (RAF.alignment_ o) offset
                        <= offset).
      { unfold TruncateToPageBoundary.
        pose proof (Z.mod_pos_bound offset (RAF.alignment_ o) Hal). lia. }
      destruct (Hfetch _ Hp Hpa) as (Hok & Hs & Hs1 & Hh1 & Hlook).
      rewrite Hok. cbn [fst snd]. rewrite Hs.
      rewrite Hlook by lia.
      simpl. auto.
Qed.

Lemma coherent_exec (contents : list byte) o c :
  reads_at_most ->
  Z.of_nat (length contents) < UINT64_MODULUS ->
  RI.buffer_sound o -> RI.holds_file_bytes contents o ->
  RI.call_fits (RAF.alignment_ o) c ->
  RI.buffer_sound (RAF.exec c o)
  /\ RI.holds_file_bytes contents (RAF.exec c o).
Proof.
  intros Hfile HL Hsound Hholds Hc.
  pose proof Hsound as ((Hal & Hbo & Hm & Hcur & Hcap & Hra) & _).
  pose proof Hholds as (Hst & Hfull & _ & _).
  destruct c as [offset n | offset n | offset len]; simpl in Hc |- *.
  - destruct Hc as (Hoff & Hn & Hfit).
    now destruct (Read_on_stable_file contents o offset n) as (_ & ? & ?).
  - destruct Hc as (Hoff & Hn & Hfit).
    rewrite Prefetch_eq.
    destruct (Z.ltb_spec n (RAF.readahead_size_ o)); [auto |]. cbv zeta.
    destruct (_ =? _); [auto |].
    destruct (ReadIntoBuffer_fresh contents o
                (TruncateToPageBoundary (RAF.alignment_ o) offset)
                (wrap (Roundup (wrap (offset + n)) (RAF.alignment_ o)
                       - TruncateToPageBoundary (RAF.alignment_ o) offset)))
      as (_ & Hs1 & Hh1 & _); auto.
    + now apply fetch_size_of_Prefetch.
    + now apply TruncateToPageBoundary_range.
    + now apply TruncateToPageBoundary_aligned.
  - split.
    + apply (buffer_sound_exec o (RAF.CallInvalidateCache offset len)); auto.
    + destruct Hst as [Hread Hinv].
      pose proof (Hinv offset len) as Hsame.
      unfold RAF.InvalidateCache, bind, modify, RAF.set_buffer.
      destruct (fs_InvalidateCache _ _ _) as [s f']. cbn [snd] in Hsame.
      subst f'.
      unfold RI.holds_file_bytes, RAF.CurrentSize. simpl.
      split; [split; assumption |].
      split; [exact Hfull |]. split; [reflexivity | now left].
Qed.

Lemma coherent_exec_all (contents : list byte) (cs : list RAF.call) o :
  reads_at_most ->
  Z.of_nat (length contents) < UINT64_MODULUS ->
  RI.buffer_sound o -> RI.holds_file_bytes contents o ->
  Forall (RI.call_fits (RAF.alignment_ o)) cs ->
  RI.buffer_sound (RAF.exec_all cs o)
  /\ RI.holds_file_bytes contents (RAF.exec_all cs o).
Proof.
  intros Hfile HL. revert o.
  induction cs as [| c cs IH]; intros o Hs Hh Hcs; simpl; [auto |].
  inversion Hcs; subst.
  destruct (coherent_exec contents o c) as (Hs' & Hh'); try assumption.
  apply IH; try assumption.
  destruct (exec_constants o c) as (-> & _). assumption.
Qed.

Lemma coherent_new (contents : list byte) (file : F) (readahead_size : Z) :
  let al := fs_GetRequiredBufferAlignment file in
  RI.stable_file contents file ->
  0 < al -> 0 <= readahead_size ->
  readahead_size + 2 * al <= UINT64_MODULUS ->
  RI.buffer_sound (RAF.new file readahead_size)
  /\ RI.holds_file_bytes contents (RAF.new file readahead_size).
Proof.
  intros al Hst Hal Hrs Hfit. split; [now apply buffer_sound_new |].
  unfold RI.holds_file_bytes, RAF.new, RAF.CurrentSize. simpl. fold al.
  split; [exact Hst |].
  split; [| split; [reflexivity | now left]].
  pose proof (Roundup_bounds readahead_size al Hal Hrs ltac:(lia)) as Hb.
  apply Roundup_of_multiple_eq; try lia.
  now apply Roundup_multiple.
Qed.

(** X9.  The wrapper is transparent.  Over a file that does not change
    and whose reads do not fail, after any sequence of reads, prefetches
    and invalidations, [Read(offset, n)] returns OK with exactly the bytes
    of the file in [offset, offset + n), cut at the end of the file:
    whatever the buffer holds and whichever path the read takes (forwarded,
    full hit, partial hit with a further fetch, or miss).  The sizes are
    assumed to fit: the file length, the read-ahead size plus two
    alignments, and the end of each requested range plus one alignment are
    below [2^64]. *)
Theorem Read_returns_the_bytes_of_the_file
        (contents : list byte) (file : F) (readahead_size : Z)
        (cs : list RAF.call) offset n :
  let al := fs_GetRequiredBufferAlignment file in
  let o := RAF.exec_all cs (RAF.new file readahead_size) in
  reads_at_most ->
  RI.stable_file contents file ->
  Z.of_nat (length contents) < UINT64_MODULUS ->
  0 < al -> 0 <= readahead_size ->
  readahead_size + 2 * al <= UINT64_MODULUS ->
  Forall (RI.call_fits al) cs ->
  in_range offset -> 0 <= n -> offset + n + al < UINT64_MODULUS ->
  fst (RAF.Read offset n o)
  = (IOStatus_OK, Some (memcpy_from contents offset n)).
Proof.
  intros al o Hfile Hst HL Hal Hrs Hfit Hcs Hoff Hn Hend.
  destruct (coherent_new contents file readahead_size Hst Hal Hrs Hfit)
    as (Hs0 & Hh0).
  destruct (coherent_exec_all contents cs (RAF.new file readahead_size))
    as (Hs & Hh); try assumption.
  fold o in Hs, Hh.
  apply Read_on_stable_file; try assumption.
  subst o. destruct (exec_all_constants cs (RAF.new file readahead_size))
    as (-> & _).
  exact Hend.
Qed.

End ReadaheadRandomAccessFileMore.

(* ================================================================== *)
(** * Properties of [BufferInfo] *)

(** X10.  Where an offset lies relative to a buffer that holds data and has
    no read in flight: exactly one of three holds.  The offset is before
    the buffer, or [IsOffsetInBuffer] holds, or [IsBufferOutdated] holds
    (the offset is at or after the end of the data).  No read is in
    flight, so the assertions of the predicates hold and each returns its
    value.  The data is assumed to end below [2^64]. *)
Theorem buffer_position_is_classified (b : BufferInfo.t) (offset : Z) :
  BufferInfo.async_read_in_progress_ b = false ->
  0 < BufferInfo.CurrentSize b ->
  0 <= BufferInfo.offset_ b ->
  BufferInfo.offset_ b + BufferInfo.CurrentSize b < UINT64_MODULUS ->
  (offset < BufferInfo.offset_ b
   /\ BufferInfo.IsOffsetInBuffer offset b = Some false
   /\ BufferInfo.IsBufferOutdated offset b = Some false)
  \/ (BufferInfo.offset_ b <= offset
                           < BufferInfo.offset_ b + BufferInfo.CurrentSize b
      /\ BufferInfo.IsOffsetInBuffer offset b = Some true
      /\ BufferInfo.IsBufferOutdated offset b = Some false)
  \/ (BufferInfo.offset_ b + BufferInfo.CurrentSize b <= offset
      /\ BufferInfo.IsOffsetInBuffer offset b = Some false
      /\ BufferInfo.IsBufferOutdated offset b = Some true).
Proof.
  intros Hasync Hsize Hoff Hend.
  unfold BufferInfo.IsOffsetInBuffer, BufferInfo.IsBufferOutdated,
    BufferInfo.DoesBufferContainData, BufferInfo.asserting.
  rewrite Hasync, wrap_small by (unfold in_range; lia).
  replace (0 <? BufferInfo.CurrentSize b) with true by (symmetry; lia).
  cbn [negb andb Bool.eqb].
  destruct (Z.leb_spec (BufferInfo.offset_ b) offset);
    destruct (Z.ltb_spec offset
                (BufferInfo.offset_ b + BufferInfo.CurrentSize b));
    destruct (Z.leb_spec
                (BufferInfo.offset_ b + BufferInfo.CurrentSize b) offset);
    cbn [andb]; try lia; auto.
Qed.

(** X11.  The same for a buffer with an asynchronous read in flight and a
    handle, with the requested length in place of the current size:
    exactly one of: the offset is before the buffer,
    [IsOffsetInBufferWithAsyncProgress], or
    [IsBufferOutdatedWithAsyncProgress]. *)
Theorem buffer_position_is_classified_in_flight
        (b : BufferInfo.t) (offset : Z) :
  BufferInfo.async_read_in_progress_ b = true ->
  BufferInfo.io_handle_ b <> None ->
  0 <= BufferInfo.offset_ b -> 0 <= BufferInfo.async_req_len_ b ->
  BufferInfo.offset_ b + BufferInfo.async_req_len_ b < UINT64_MODULUS ->
  (offset < BufferInfo.offset_ b
   /\ BufferInfo.IsOffsetInBufferWithAsyncProgress offset b = false
   /\ BufferInfo.IsBufferOutdatedWithAsyncProgress offset b = false)
  \/ (BufferInfo.offset_ b <= offset
                           < BufferInfo.offset_ b + BufferInfo.async_req_len_ b
      /\ BufferInfo.IsOffsetInBufferWithAsyncProgress offset b = true
      /\ BufferInfo.IsBufferOutdatedWithAsyncProgress offset b = false)
  \/ (BufferInfo.offset_ b + BufferInfo.async_req_len_ b <= offset
      /\ BufferInfo.IsOffsetInBufferWithAsyncProgress offset b = false
      /\ BufferInfo.IsBufferOutdatedWithAsyncProgress offset b = true).
Proof.
  intros Hasync Hhandle Hoff Hlen Hend.
  unfold BufferInfo.IsOffsetInBufferWithAsyncProgress,
    BufferInfo.IsBufferOutdatedWithAsyncProgress.
  rewrite Hasync, wrap_small by (unfold in_range; lia).
  destruct (BufferInfo.io_handle_ b) as [h |]; [| congruence].
  cbn [andb].
  destruct (Z.leb_spec (BufferInfo.offset_ b) offset);
    destruct (Z.ltb_spec offset
                (BufferInfo.offset_ b + BufferInfo.async_req_len_ b));
    destruct (Z.leb_spec
                (BufferInfo.offset_ b + BufferInfo.async_req_len_ b) offset);
    cbn [andb]; try lia; auto.
Qed.

(** X12.  [IsDataBlockInBuffer] is closed under sub-ranges, and a range it
    accepts that is not empty starts and ends at offsets that
    [IsOffsetInBuffer] accepts; the assertions of these calls hold.  The
    ranges are assumed to end below [2^64]. *)
Theorem data_block_in_buffer_contains_its_parts
        (b : BufferInfo.t) (offset length offset' length' : Z) :
  BufferInfo.IsDataBlockInBuffer offset length b = Some true ->
  0 <= BufferInfo.offset_ b -> 0 <= BufferInfo.CurrentSize b ->
  BufferInfo.offset_ b + BufferInfo.CurrentSize b < UINT64_MODULUS ->
  0 <= length -> offset + length < UINT64_MODULUS ->
  offset <= offset' -> 0 < length' -> offset' + length' <= offset + length ->
  BufferInfo.IsDataBlockInBuffer offset' length' b = Some true
  /\ BufferInfo.IsOffsetInBuffer offset' b = Some true
  /\ BufferInfo.IsOffsetInBuffer (offset' + length' - 1) b = Some true.
Proof.
  unfold BufferInfo.IsDataBlockInBuffer, BufferInfo.IsOffsetInBuffer,
    BufferInfo.asserting.
  intros Hin Hoff Hsize Hend Hlen Hfit Hsub Hlen' Hsub'.
  destruct (BufferInfo.async_read_in_progress_ b); [discriminate Hin |].
  cbn [Bool.eqb] in *.
  injection Hin as Hin.
  apply andb_prop in Hin. destruct Hin as [Hlo Hhi].
  apply Z.leb_le in Hlo.
  rewrite (wrap_small (BufferInfo.offset_ b + _)) in *
    by (unfold in_range; lia).
  rewrite (wrap_small (offset + length)) in Hhi by (unfold in_range; lia).
  apply Z.leb_le in Hhi.
  rewrite (wrap_small (offset' + length')) by (unfold in_range; lia).
  repeat split; f_equal; apply andb_true_intro; split;
    first [apply Z.leb_le | apply Z.ltb_lt]; lia.
Qed.

(** X13.  A buffer that [ClearBuffer] has cleared holds no offset, whatever
    it held before: its current size is 0,
    [IsOffsetInBufferWithAsyncProgress] accepts no offset, and
    [IsBufferOutdated] returns false.  Its offset, the in-flight flag and
    the handle are kept.  When no read is in flight,
    [DoesBufferContainData] and [IsOffsetInBuffer] return false; when one
    is, [ClearBuffer] has kept the flag, and the assertion of these two
    fails. *)
Theorem ClearBuffer_leaves_no_offset_in_buffer (b : BufferInfo.t) (offset : Z) :
  let b' := BufferInfo.ClearBuffer b in
  in_range (BufferInfo.offset_ b) ->
  BufferInfo.CurrentSize b' = 0
  /\ BufferInfo.IsOffsetInBufferWithAsyncProgress offset b' = false
  /\ BufferInfo.IsBufferOutdated offset b' = Some false
  /\ BufferInfo.offset_ b' = BufferInfo.offset_ b
  /\ BufferInfo.async_read_in_progress_ b' = BufferInfo.async_read_in_progress_ b
  /\ BufferInfo.io_handle_ b' = BufferInfo.io_handle_ b
  /\ (BufferInfo.async_read_in_progress_ b = false ->
      BufferInfo.DoesBufferContainData b' = Some false
      /\ BufferInfo.IsOffsetInBuffer offset b' = Some false)
  /\ (BufferInfo.async_read_in_progress_ b = true ->
      BufferInfo.DoesBufferContainData b' = None
      /\ BufferInfo.IsOffsetInBuffer offset b' = None).
Proof.
  intros b' Hoff. subst b'.
  unfold BufferInfo.IsOffsetInBuffer, BufferInfo.IsBufferOutdated,
    BufferInfo.IsOffsetInBufferWithAsyncProgress,
    BufferInfo.DoesBufferContainData, BufferInfo.asserting,
    BufferInfo.CurrentSize, BufferInfo.ClearBuffer.
  cbn [BufferInfo.buffer_ BufferInfo.offset_ BufferInfo.async_req_len_
       BufferInfo.async_read_in_progress_ BufferInfo.io_handle_
       AlignedBuffer.Clear AlignedBuffer.Size AlignedBuffer.CurrentSize
       AlignedBuffer.cursize_].
  rewrite Z.add_0_r, (wrap_small _ Hoff).
  assert (Hnone : (BufferInfo.offset_ b <=? offset)
                  && (offset <? BufferInfo.offset_ b) = false).
  { destruct (Z.leb_spec (BufferInfo.offset_ b) offset);
      destruct (Z.ltb_spec offset (BufferInfo.offset_ b)); cbn [andb];
      (reflexivity || lia). }
  split; [reflexivity |].
  split; [rewrite <- andb_assoc, Hnone; apply andb_false_r |].
  split; [now destruct (BufferInfo.async_read_in_progress_ b) |].
  do 3 (split; [reflexivity |]).
  split; intros ->; cbn [Bool.eqb]; rewrite ?Hnone; split; reflexivity.
Qed.

(* ================================================================== *)
(** * Properties of [NewestFirstBySeqNo] *)

Section NewestFirstBySeqNoFacts.

Variable FileMetaData : Type.
Variables largest_seqno smallest_seqno GetNumber : FileMetaData -> Z.

#[local] Abbreviation newest_first :=
  (NewestFirstBySeqNo.call FileMetaData largest_seqno smallest_seqno
                           GetNumber).
#[local] Abbreviation key :=
  (NewestFirstBySeqNo.key FileMetaData largest_seqno smallest_seqno GetNumber).

(** The comparator is the lexicographic order on the three fields, each
    descending. *)
Lemma newest_first_spec (lhs rhs : FileMetaData) :
  newest_first lhs rhs = true
  <-> largest_seqno rhs < largest_seqno lhs
      \/ (largest_seqno rhs = largest_seqno lhs
          /\ (smallest_seqno rhs < smallest_seqno lhs
              \/ (smallest_seqno rhs = smallest_seqno lhs
                  /\ GetNumber rhs < GetNumber lhs))).
Proof.
  unfold NewestFirstBySeqNo.call.
  destruct (Z.eqb_spec (largest_seqno lhs) (largest_seqno rhs));
    destruct (Z.eqb_spec (smallest_seqno lhs) (smallest_seqno rhs));
    cbn [negb]; rewrite Z.ltb_lt; lia.
Qed.

(** X14.  The comparator is transitive, as sorting with it requires. *)
Theorem NewestFirstBySeqNo_transitive (a b c : FileMetaData) :
  NewestFirstBySeqNo.call FileMetaData largest_seqno smallest_seqno GetNumber
    a b = true ->
  NewestFirstBySeqNo.call FileMetaData largest_seqno smallest_seqno GetNumber
    b c = true ->
  NewestFirstBySeqNo.call FileMetaData largest_seqno smallest_seqno GetNumber
    a c = true.
Proof.
  rewrite !newest_first_spec. lia.
Qed.

(** X15.  Of two files exactly one holds: the first sorts before the
    second, the second before the first, or the two agree on the largest
    sequence number, the smallest sequence number and the file number.  In
    particular no file sorts before itself and no two sort before each
    other. *)
Theorem NewestFirstBySeqNo_trichotomy (a b : FileMetaData) :
  let before :=
    NewestFirstBySeqNo.call FileMetaData largest_seqno smallest_seqno
                            GetNumber in
  let fields :=
    NewestFirstBySeqNo.key FileMetaData largest_seqno smallest_seqno
                           GetNumber in
  (before a b = true /\ before b a = false /\ fields a <> fields b)
  \/ (before a b = false /\ before b a = true /\ fields a <> fields b)
  \/ (before a b = false /\ before b a = false /\ fields a = fields b).
Proof.
  cbv zeta.
  pose proof (newest_first_spec a b) as Hab.
  pose proof (newest_first_spec b a) as Hba.
  unfold NewestFirstBySeqNo.key.
  destruct (newest_first a b); destruct (newest_first b a).
  - exfalso. destruct Hab as [Hab _]. destruct Hba as [Hba _].
    specialize (Hab eq_refl). specialize (Hba eq_refl). lia.
  - left. repeat split. intros E. inversion E.
    destruct Hab as [Hab _]. specialize (Hab eq_refl). lia.
  - right. left. repeat split. intros E. inversion E.
    destruct Hba as [Hba _]. specialize (Hba eq_refl). lia.
  - right. right. repeat split.
    destruct Hab as [_ Hab]. destruct Hba as [_ Hba].
    assert (largest_seqno a = largest_seqno b
            /\ smallest_seqno a = smallest_seqno b
            /\ GetNumber a = GetNumber b) as (-> & -> & ->).
    { destruct (Z.lt_total (largest_seqno a) (largest_seqno b))
        as [? | [? | ?]];
        destruct (Z.lt_total (smallest_seqno a) (smallest_seqno b))
          as [? | [? | ?]];
        destruct (Z.lt_total (GetNumber a) (GetNumber b)) as [? | [? | ?]];
        try (repeat split; assumption);
        exfalso;
        first [ assert (true = true) as _ by reflexivity;
                (assert (false = true) as X by (apply Hab; lia)
                 || assert (false = true) as X by (apply Hba; lia));
                discriminate X ]. }
    reflexivity.
Qed.

End NewestFirstBySeqNoFacts.

(* ================================================================== *)
(** * Further properties of the header of [FilePrefetchBuffer] *)

(** Once the behaviour is undefined, it stays so for the rest of the
    loop. *)
Lemma TEST_loop_undefined (bufs : list BufferInfo.t) (indices : list nat) :
  fold_left
    (fun (r : outcome (list (Z * Z))) (i : nat) =>
       match r with
       | Returns v =>
           match nth_error bufs i with
           | Some b => vector_set v i (FPB.buffer_offset_and_size b)
           | None => UndefinedBehaviour
           end
       | _ => r
       end) indices UndefinedBehaviour
  = UndefinedBehaviour.
Proof. induction indices as [| i indices IH]; [reflexivity | exact IH]. Qed.

(** An assignment just behind a prefix of the vector. *)
Lemma vector_set_after {A : Type} (done tail : list A) (x : A) :
  vector_set (done ++ tail) (length done) x
  = match tail with
    | [] => UndefinedBehaviour
    | _ :: tail' => Returns (done ++ x :: tail')
    end.
Proof.
  induction done as [| y done IH]; cbn [app length vector_set].
  - now destruct tail.
  - rewrite IH. now destruct tail.
Qed.

(** The loop, started at the index [length done] with the pairs of the
    buffers [done] already stored. *)
Lemma TEST_loop_from (done rest : list BufferInfo.t) (tail : list (Z * Z)) :
  fold_left
    (fun (r : outcome (list (Z * Z))) (i : nat) =>
       match r with
       | Returns v =>
           match nth_error (done ++ rest) i with
           | Some b => vector_set v i (FPB.buffer_offset_and_size b)
           | None => UndefinedBehaviour
           end
       | _ => r
       end)
    (seq (length done) (length rest))
    (Returns (map FPB.buffer_offset_and_size done ++ tail))
  = if (length rest <=? length tail)%nat
    then Returns (map FPB.buffer_offset_and_size (done ++ rest)
                  ++ skipn (length rest) tail)
    else UndefinedBehaviour.
Proof.
  revert done tail.
  induction rest as [| b rest IH]; intros done tail.
  - cbn [length seq fold_left Nat.leb skipn]. now rewrite app_nil_r.
  - cbn [length seq fold_left].
    rewrite nth_error_app2, Nat.sub_diag by lia. cbn [nth_error].
    rewrite <- (length_map FPB.buffer_offset_and_size done) at 2.
    rewrite vector_set_after.
    destruct tail as [| t tail].
    + rewrite TEST_loop_undefined. reflexivity.
    + cbn [length Nat.leb skipn].
      specialize (IH (done ++ [b]) tail).
      rewrite length_app, Nat.add_1_r, map_app, <- !app_assoc in IH.
      exact IH.
Qed.

(** X16.  [TEST_GetBufferOffsetandSize] on a vector that has at least as
    many elements as the queue has buffers overwrites its first elements
    with the pairs of the buffers, in order, and leaves the other elements
    as they were; the pair [(offset, size)] of a buffer describes the
    offsets the buffer accepts: [IsOffsetInBuffer] for a buffer with no
    read in flight, [IsOffsetInBufferWithAsyncProgress] for one with a read
    in flight, accept exactly the offsets in [offset, offset + size) (for
    ranges that end below [2^64]).  On a shorter vector the loop writes
    behind the end of the vector, which is undefined. *)
Theorem TEST_GetBufferOffsetandSize_describes_the_buffers
        (o : FPB.t) (buffer_info : list (Z * Z)) :
  ((length (FPB.bufs_ o) <= length buffer_info)%nat ->
   FPB.TEST_GetBufferOffsetandSize buffer_info o
   = Returns (map FPB.buffer_offset_and_size (FPB.bufs_ o)
              ++ skipn (length (FPB.bufs_ o)) buffer_info)
   /\ Forall (fun b =>
                let p := FPB.buffer_offset_and_size b in
                fst p = BufferInfo.offset_ b
                /\ (in_range (fst p + snd p) ->
                    forall x : Z,
                      (if BufferInfo.async_read_in_progress_ b
                       then Some (BufferInfo.IsOffsetInBufferWithAsyncProgress
                                    x b)
                       else BufferInfo.IsOffsetInBuffer x b)
                      = Some ((fst p <=? x) && (x <? fst p + snd p))))
             (FPB.bufs_ o))
  /\ ((length buffer_info < length (FPB.bufs_ o))%nat ->
      FPB.TEST_GetBufferOffsetandSize buffer_info o = UndefinedBehaviour).
Proof.
  pose proof (TEST_loop_from [] (FPB.bufs_ o) buffer_info) as Hloop.
  cbn [app length map] in Hloop.
  unfold FPB.TEST_GetBufferOffsetandSize.
  split; intros Hlen; rewrite Hloop.
  - replace (_ <=? _)%nat with true by (symmetry; apply Nat.leb_le; lia).
    split; [reflexivity |].
    apply Forall_forall. intros b _. cbv zeta.
    split; [reflexivity |].
    unfold FPB.buffer_offset_and_size. cbn [fst snd].
    intros Hfit x.
    unfold BufferInfo.IsOffsetInBufferWithAsyncProgress,
      BufferInfo.IsOffsetInBuffer, BufferInfo.asserting.
    destruct (BufferInfo.async_read_in_progress_ b);
      rewrite (wrap_small _ Hfit); reflexivity.
  - now replace (_ <=? _)%nat with false by (symmetry; apply Nat.leb_gt; lia).
Qed.

Section ReadaheadRandomAccessFileErrors.

Context {F : Type} `{FSRandomAccessFile F}.

(** X17.  A [Read] that returns a status that is not OK has issued exactly
    one read of the file, whose status it returns, and has left the cached
    offset and the current size of the buffer as they were.  On the cache
    path it returns without assigning [*result], also when the lookup had
    already copied a prefix of the range to [scratch]. *)
Theorem failed_Read_keeps_offset_and_size (o : RAF.t F) (offset n : Z) :
  let o' := snd (RAF.Read offset n o) in
  ok (fst (fst (RAF.Read offset n o))) = false ->
  (exists offset' n',
      RAF.io_log_ o' = (offset', n') :: RAF.io_log_ o
      /\ fst (fst (RAF.Read offset n o))
         = fst (fst (fs_Read (RAF.file_ o) offset' n')))
  /\ RAF.buffer_offset_ o' = RAF.buffer_offset_ o
  /\ RAF.CurrentSize o' = RAF.CurrentSize o
  /\ (wrap (n + RAF.alignment_ o) < RAF.readahead_size_ o ->
      snd (fst (RAF.Read offset n o)) = None).
Proof.
  cbv zeta. rewrite Read_eq.
  destruct (Z.leb_spec (RAF.readahead_size_ o) (wrap (n + RAF.alignment_ o)))
    as [Hbig | Hsmall].
  - cbv zeta. cbn [fst snd]. intros _.
    split; [eexists _, _; split; reflexivity |].
    split; [reflexivity |]. split; [reflexivity | lia].
  - destruct (fst (RAF.TryReadFromCache offset n o)) as [[hit len] scratch].
    destruct (hit && _); [discriminate |]. cbv zeta.
    destruct (ok (fst (RAF.ReadIntoBuffer _ _ o))) eqn:Eok;
      cbn [fst snd]; [congruence |].
    intros _. revert Eok. rewrite ReadIntoBuffer_eq. cbv zeta. cbn [fst snd].
    intros ->. unfold RAF.CurrentSize. simpl.
    split; [eexists _, _; split; reflexivity |].
    split; [reflexivity |]. split; reflexivity.
Qed.

End ReadaheadRandomAccessFileErrors.

(* ================================================================== *)
(** * The further properties at concrete inputs *)

Lemma PlainFile_reads_at_most : @reads_at_most PlainFile.t PlainFile.file.
Proof.
  intros f offset n. simpl. apply memcpy_from_length_le.
Qed.

Lemma PlainFile_stable (f : PlainFile.t) :
  RI.stable_file (PlainFile.contents_ f) f.
Proof. split; reflexivity. Qed.

Lemma raf_full_sound : RI.buffer_sound Samples.raf_full.
Proof.
  apply buffer_sound_exec_all.
  - exact MemFile_reads_at_most.
  - apply buffer_sound_new. reflexivity.
  - repeat constructor; closed_condition.
Qed.

Lemma reachable_states_are_sound_witness :
  RI.buffer_sound (RAF.exec_all MoreSamples.mixed_calls Samples.raf0).
Proof.
  unshelve epose proof
    (reachable_states_are_sound MemFile.sample 16 MoreSamples.mixed_calls
                                _ _ _) as W.
  1: exact MemFile_reads_at_most.
  1: closed_condition.
  1: repeat constructor; closed_condition.
  exact W.
Defined.

Lemma TryReadFromCache_copies_within_buffer_witness :
  fst (RAF.TryReadFromCache 18 4 Samples.raf_full)
  = (true, 2, [Byte.x02; Byte.x03])
  /\ 18 + 2 <= RAF.buffer_offset_ Samples.raf_full
               + RAF.CurrentSize Samples.raf_full
  /\ RAF.CurrentSize Samples.raf_full
     <= Z.of_nat (length (AlignedBuffer.BufferStart
                            (RAF.buffer_ Samples.raf_full))).
Proof.
  unshelve epose proof
    (TryReadFromCache_copies_within_buffer Samples.raf_full 18 4 _ _ _)
    as (_ & _ & Hin & Hmem).
  1: exact raf_full_sound.
  1-2: closed_condition.
  split; [reflexivity |]. split; [exact Hin | exact Hmem].
Defined.

Lemma Read_returns_at_most_n_bytes_witness :
  match snd (fst (RAF.Read 18 4 Samples.raf_full)) with
  | Some result => Z.of_nat (length result) <= 4
  | None => ok (fst (fst (RAF.Read 18 4 Samples.raf_full))) = false
  end.
Proof.
  unshelve epose proof
    (Read_returns_at_most_n_bytes Samples.raf_full 18 4 _ _) as W.
  1: exact MemFile_reads_at_most.
  1: closed_condition.
  exact W.
Defined.

Lemma fetches_are_aligned_and_capacity_sized_witness :
  RAF.io_log_ (snd (RAF.Prefetch 22 16 Samples.raf_full))
  = (20, 16) :: RAF.io_log_ Samples.raf_full
  /\ (RAF.io_log_ (snd (RAF.Read 18 4 Samples.raf_full))
      = RAF.io_log_ Samples.raf_full
      \/ exists chunk,
          RAF.io_log_ (snd (RAF.Read 18 4 Samples.raf_full))
          = (chunk, 16) :: RAF.io_log_ Samples.raf_full
          /\ chunk mod 4 = 0 /\ 0 <= chunk <= 18 + 4).
Proof.
  unshelve epose proof
    (fetches_are_aligned_and_capacity_sized Samples.raf_full 22 16 _ _ _ _)
    as (_ & Hprefetch & _).
  1: exact raf_full_sound.
  1-3: closed_condition.
  unshelve epose proof
    (fetches_are_aligned_and_capacity_sized Samples.raf_full 18 4 _ _ _ _)
    as (_ & _ & Hread).
  1: exact raf_full_sound.
  1-3: closed_condition.
  split.
  - destruct Hprefetch as [Hnone | [Hone _]]; [| exact Hone].
    vm_compute in Hnone. discriminate Hnone.
  - apply Hread. closed_condition.
Defined.

Lemma InvalidateCache_empties_the_cache_witness :
  let o' := snd (RAF.InvalidateCache 0 64 Samples.raf_full) in
  RAF.CurrentSize Samples.raf_full = 16
  /\ RAF.CurrentSize o' = 0
  /\ RAF.TryReadFromCache 6 4 o' = ((false, 0, []), o')
  /\ RAF.io_log_ (snd (RAF.Read 6 4 o')) = [(4, 16); (4, 16)].
Proof.
  cbv zeta.
  unshelve epose proof
    (InvalidateCache_empties_the_cache Samples.raf_full 0 64 6 4 _)
    as (_ & Hsize & _ & Hmiss & Hread).
  1: exact raf_full_sound.
  split; [reflexivity |]. split; [exact Hsize |]. split; [exact Hmiss |].
  apply Hread; closed_condition.
Defined.

Lemma Prefetch_after_InvalidateCache_does_not_refill_witness :
  let o1 := snd (RAF.Prefetch 4 16 Samples.raf0) in
  let o2 := snd (RAF.InvalidateCache 0 64 o1) in
  RAF.CurrentSize o1 = 16
  /\ RAF.Prefetch 4 16 o2 = (IOStatus_OK, o2)
  /\ RAF.CurrentSize o2 = 0.
Proof.
  cbv zeta.
  unshelve epose proof
    (Prefetch_after_InvalidateCache_does_not_refill Samples.raf0 4 16 0 64 _)
    as (Hskip & Hempty).
  1: closed_condition.
  split; [reflexivity |]. split; [exact Hskip | exact Hempty].
Defined.

Lemma Prefetch_in_first_page_of_new_wrapper_is_dropped_witness :
  RAF.Prefetch 2 16 Samples.raf0 = (IOStatus_OK, Samples.raf0)
  /\ RAF.CurrentSize Samples.raf0 = 0
  /\ RAF.io_log_ Samples.raf0 = [].
Proof.
  unshelve epose proof
    (Prefetch_in_first_page_of_new_wrapper_is_dropped
       MemFile.sample 16 2 16 _) as W.
  1: closed_condition.
  exact W.
Defined.

Lemma Read_returns_the_bytes_of_the_file_witness :
  let o := RAF.exec_all MoreSamples.calls MoreSamples.plain0 in
  fst (RAF.Read 30 6 o)
  = (IOStatus_OK,
     Some [Byte.x0e; Byte.x0f; Byte.x00; Byte.x01; Byte.x02; Byte.x03])
  /\ fst (RAF.Read 60 10 o)
     = (IOStatus_OK, Some [Byte.x0c; Byte.x0d; Byte.x0e; Byte.x0f])
  /\ fst (RAF.Read 70 3 o) = (IOStatus_OK, Some []).
Proof.
  cbv zeta.
  assert (Hcs : Forall (RI.call_fits 4) MoreSamples.calls)
    by (repeat constructor; closed_condition).
  split; [| split].
  - unshelve epose proof
      (Read_returns_the_bytes_of_the_file
         (PlainFile.contents_ PlainFile.sample) PlainFile.sample 16
         MoreSamples.calls 30 6 _ _ _ _ _ _ Hcs _ _ _) as W.
    1: exact PlainFile_reads_at_most.
    1: apply PlainFile_stable.
    1-7: closed_condition.
    exact W.
  - unshelve epose proof
      (Read_returns_the_bytes_of_the_file
         (PlainFile.contents_ PlainFile.sample) PlainFile.sample 16
         MoreSamples.calls 60 10 _ _ _ _ _ _ Hcs _ _ _) as W.
    1: exact PlainFile_reads_at_most.
    1: apply PlainFile_stable.
    1-7: closed_condition.
    exact W.
  - unshelve epose proof
      (Read_returns_the_bytes_of_the_file
         (PlainFile.contents_ PlainFile.sample) PlainFile.sample 16
         MoreSamples.calls 70 3 _ _ _ _ _ _ Hcs _ _ _) as W.
    1: exact PlainFile_reads_at_most.
    1: apply PlainFile_stable.
    1-7: closed_condition.
    exact W.
Defined.

Lemma buffer_position_is_classified_witness :
  BufferInfo.IsOffsetInBuffer 4100 MoreSamples.block = Some true
  /\ BufferInfo.IsBufferOutdated 4100 MoreSamples.block = Some false.
Proof.
  unshelve epose proof
    (buffer_position_is_classified MoreSamples.block 4100 _ _ _ _)
    as [(Hlt & _) | [(_ & Hin & Hout) | (Hge & _)]].
  1-4: closed_condition.
  - vm_compute in Hlt. discriminate Hlt.
  - split; [exact Hin | exact Hout].
  - exfalso. apply Hge. reflexivity.
Defined.

Lemma buffer_position_is_classified_in_flight_witness :
  BufferInfo.IsOffsetInBufferWithAsyncProgress 8300 MoreSamples.block_in_flight
  = false
  /\ BufferInfo.IsBufferOutdatedWithAsyncProgress
       8300 MoreSamples.block_in_flight = true.
Proof.
  unshelve epose proof
    (buffer_position_is_classified_in_flight
       MoreSamples.block_in_flight 8300 _ _ _ _ _)
    as [(Hlt & _) | [((_ & Hlt) & _) | (_ & Hin & Hout)]].
  1: closed_condition.
  1: discriminate.
  1-3: closed_condition.
  - vm_compute in Hlt. discriminate Hlt.
  - vm_compute in Hlt. discriminate Hlt.
  - split; [exact Hin | exact Hout].
Defined.

Lemma data_block_in_buffer_contains_its_parts_witness :
  BufferInfo.IsDataBlockInBuffer 4100 4 MoreSamples.block = Some true
  /\ BufferInfo.IsOffsetInBuffer 4100 MoreSamples.block = Some true
  /\ BufferInfo.IsOffsetInBuffer (4100 + 4 - 1) MoreSamples.block = Some true.
Proof.
  unshelve epose proof
    (data_block_in_buffer_contains_its_parts
       MoreSamples.block 4096 16 4100 4 _ _ _ _ _ _ _ _ _) as W.
  1-9: closed_condition.
  exact W.
Defined.

Lemma ClearBuffer_leaves_no_offset_in_buffer_witness :
  BufferInfo.IsOffsetInBuffer 4100 MoreSamples.block = Some true
  /\ BufferInfo.IsOffsetInBuffer
       4100 (BufferInfo.ClearBuffer MoreSamples.block) = Some false
  /\ BufferInfo.IsOffsetInBufferWithAsyncProgress
       8200 MoreSamples.block_in_flight = true
  /\ BufferInfo.IsOffsetInBufferWithAsyncProgress
       8200 (BufferInfo.ClearBuffer MoreSamples.block_in_flight) = false
  /\ BufferInfo.IsOffsetInBuffer
       8200 (BufferInfo.ClearBuffer MoreSamples.block_in_flight) = None.
Proof.
  unshelve epose proof
    (ClearBuffer_leaves_no_offset_in_buffer MoreSamples.block 4100 _)
    as (_ & _ & _ & _ & _ & _ & Hsync & _).
  1: closed_condition.
  unshelve epose proof
    (ClearBuffer_leaves_no_offset_in_buffer MoreSamples.block_in_flight 8200 _)
    as (_ & Hasync & _ & _ & _ & _ & _ & Hfails).
  1: closed_condition.
  split; [reflexivity |]. split; [apply Hsync; reflexivity |].
  split; [reflexivity |]. split; [exact Hasync |].
  apply Hfails. reflexivity.
Defined.

Lemma NewestFirstBySeqNo_transitive_witness :
  NewestFirstBySeqNo.triple_call (30, 20, 7) (30, 10, 9) = true
  /\ NewestFirstBySeqNo.triple_call (30, 10, 9) (30, 10, 8) = true
  /\ NewestFirstBySeqNo.triple_call (30, 20, 7) (30, 10, 8) = true.
Proof.
  split; [reflexivity |]. split; [reflexivity |].
  unshelve epose proof
    (NewestFirstBySeqNo_transitive
       (Z * Z * Z) (fun f => fst (fst f)) (fun f => snd (fst f)) snd
       (30, 20, 7) (30, 10, 9) (30, 10, 8) _ _) as W.
  1-2: reflexivity.
  exact W.
Defined.

Lemma TEST_GetBufferOffsetandSize_describes_the_buffers_witness :
  FPB.TEST_GetBufferOffsetandSize MoreSamples.three_pairs MoreSamples.fpb_two
  = Returns ([(4096, 16); (8192, 100)] ++ [(7, 7)])
  /\ (forall x : Z,
         BufferInfo.IsOffsetInBuffer x MoreSamples.block
         = Some ((4096 <=? x) && (x <? 4096 + 16)))
  /\ FPB.TEST_GetBufferOffsetandSize [(7, 7)] MoreSamples.fpb_two
     = UndefinedBehaviour.
Proof.
  unshelve epose proof
    (TEST_GetBufferOffsetandSize_describes_the_buffers
       MoreSamples.fpb_two MoreSamples.three_pairs) as (Hfits & _).
  unshelve epose proof
    (TEST_GetBufferOffsetandSize_describes_the_buffers
       MoreSamples.fpb_two [(7, 7)]) as (_ & Hshort).
  destruct Hfits as (Hpairs & Haccept); [vm_compute; lia |].
  split; [exact Hpairs |].
  split; [| apply Hshort; vm_compute; lia].
  apply Forall_inv in Haccept. cbv zeta in Haccept.
  destruct Haccept as (_ & Haccept).
  apply Haccept. closed_condition.
Defined.

Lemma failed_Read_keeps_offset_and_size_witness :
  let r := RAF.Read 34 4 Samples.raf_full in
  code (fst (fst r)) = kIOError
  /\ snd (fst r) = None
  /\ RAF.buffer_offset_ (snd r) = 4
  /\ RAF.CurrentSize (snd r) = 16.
Proof.
  cbv zeta.
  unshelve epose proof
    (failed_Read_keeps_offset_and_size Samples.raf_full 34 4 _)
    as (_ & Hbo & Hcur & Hnone).
  1: closed_condition.
  split; [reflexivity |].
  split; [apply Hnone; closed_condition |].
  split; [exact Hbo | exact Hcur].
Defined.
